(** * MANGESTIC CTF API: a shallow embedding of [main.py] and [schemas.py]

    The development follows the layering of the program:
    - Python strings and the exceptions the handlers can raise;
    - the hashing utility [sha256] (UTF-8 encoding followed by SHA-256 and
      lower-case hexadecimal rendering, as [hashlib] computes it);
    - documents, filters and the document store, with its driver calls;
    - the pydantic schemas of [schemas.py];
    - the endpoints of [main.py], in a state-and-exception monad;
    - the theorems about the endpoints. *)

From Stdlib Require Import ZArith Lia.
From stdpp Require Import base tactics option list sorting strings gmap.

Local Open Scope Z_scope.

(** ** Python strings *)

(** A Python [str] is a sequence of code points, each in [0, 0x10FFFF];
    surrogate code points (U+D800 to U+DFFF) may occur in it. *)
Abbreviation pystr := (list Z).

Definition code_point (c : Z) : Prop := 0 <= c <= 0x10FFFF.
Definition surrogate (c : Z) : bool := (0xD800 <=? c) && (c <=? 0xDFFF).

(** A Unicode scalar value is a code point that is not a surrogate. *)
Definition scalar_value (c : Z) : Prop := code_point c /\ surrogate c = false.

(** A string literal of the source, all of whose characters are ASCII. *)
Definition py (s : string) : pystr :=
  map (fun a => Z.of_N (Ascii.N_of_ascii a)) (String.list_ascii_of_string s).

(** ** Exceptions *)

(** The exceptions that can leave a handler.  [HTTPException] is the one the
    handlers raise on purpose; FastAPI answers any other exception with
    status 500, "Internal Server Error". *)
Inductive exn : Type :=
  | HTTPException (status_code : Z) (detail : string)
  | ValidationError       (* pydantic: a schema constraint is violated *)
  | UnicodeEncodeError    (* str.encode: a surrogate cannot be encoded *)
  | InvalidId             (* bson: not the text of an ObjectId *)
  | TypeError             (* subscripting a database handle that is None *)
  | PyMongoError (msg : string).   (* the store failed during a driver call *)

Definition result (A : Type) : Type := exn + A.

(** [str(e)]: the message of an exception. *)
Definition exn_str (e : exn) : string :=
  match e with
  | HTTPException _ detail => detail
  | PyMongoError msg => msg
  | _ => ""
  end.

Definition http_status {A} (r : result A) : Z :=
  match r with
  | inr _ => 200
  | inl (HTTPException s _) => s
  | inl _ => 500
  end.

(** ** The hashing utility *)

Module Utf8.

(** [str.encode()] for one code point: UTF-8, error handler "strict". *)
Definition encode_point (c : Z) : option (list Z) :=
  if c <? 0 then None
  else if c <? 0x80 then Some [c]
  else if c <? 0x800 then
    Some [Z.lor 0xC0 (Z.shiftr c 6); Z.lor 0x80 (Z.land c 0x3F)]
  else if c <? 0x10000 then
    if surrogate c then None
    else Some [Z.lor 0xE0 (Z.shiftr c 12);
               Z.lor 0x80 (Z.land (Z.shiftr c 6) 0x3F);
               Z.lor 0x80 (Z.land c 0x3F)]
  else if c <? 0x110000 then
    Some [Z.lor 0xF0 (Z.shiftr c 18);
          Z.lor 0x80 (Z.land (Z.shiftr c 12) 0x3F);
          Z.lor 0x80 (Z.land (Z.shiftr c 6) 0x3F);
          Z.lor 0x80 (Z.land c 0x3F)]
  else None.

Fixpoint encode (s : pystr) : result (list Z) :=
  match s with
  | [] => inr []
  | c :: s' =>
      match encode_point c with
      | None => inl UnicodeEncodeError
      | Some bs =>
          match encode s' with
          | inl e => inl e
          | inr rest => inr (bs ++ rest)
          end
      end
  end.

End Utf8.

Module SHA256.

(** 32-bit words are integers in [0, 2^32); addition wraps around. *)
Definition wrap (x : Z) : Z := x mod 2 ^ 32.
Definition add32 (x y : Z) : Z := wrap (x + y).
Definition rotr (n x : Z) : Z :=
  wrap (Z.lor (Z.shiftr x n) (Z.shiftl x (32 - n))).
Definition shr (n x : Z) : Z := Z.shiftr x n.
Definition not32 (x : Z) : Z := 2 ^ 32 - 1 - x.

Definition Ch (x y z : Z) : Z := Z.lxor (Z.land x y) (Z.land (not32 x) z).
Definition Maj (x y z : Z) : Z :=
  Z.lxor (Z.lxor (Z.land x y) (Z.land x z)) (Z.land y z).
Definition bsig0 (x : Z) : Z := Z.lxor (Z.lxor (rotr 2 x) (rotr 13 x)) (rotr 22 x).
Definition bsig1 (x : Z) : Z := Z.lxor (Z.lxor (rotr 6 x) (rotr 11 x)) (rotr 25 x).
Definition ssig0 (x : Z) : Z := Z.lxor (Z.lxor (rotr 7 x) (rotr 18 x)) (shr 3 x).
Definition ssig1 (x : Z) : Z := Z.lxor (Z.lxor (rotr 17 x) (rotr 19 x)) (shr 10 x).

(** The constants are the leading 32 bits of the fractional parts of the
    square roots (initial state) and cube roots (round constants) of the
    first primes. *)
Definition primes : list Z :=
  [2; 3; 5; 7; 11; 13; 17; 19; 23; 29; 31; 37; 41; 43; 47; 53;
   59; 61; 67; 71; 73; 79; 83; 89; 97; 101; 103; 107; 109; 113; 127; 131;
   137; 139; 149; 151; 157; 163; 167; 173; 179; 181; 191; 193; 197; 199;
   211; 223; 227; 229; 233; 239; 241; 251; 257; 263; 269; 271; 277; 281;
   283; 293; 307; 311].

(** Integer cube root, one bit at a time from bit [bits - 1] down. *)
Fixpoint icbrt_from (bits : nat) (n r : Z) : Z :=
  match bits with
  | O => r
  | S b =>
      let r' := r + 2 ^ Z.of_nat b in
      icbrt_from b n (if r' * r' * r' <=? n then r' else r)
  end.
Definition icbrt (n : Z) : Z := icbrt_from 40 n 0.

Definition K : list Z :=
  Eval vm_compute in map (fun p => wrap (icbrt (p * 2 ^ 96))) primes.

Definition H0 : list Z :=
  Eval vm_compute in map (fun p => wrap (Z.sqrt (p * 2 ^ 64))) (take 8 primes).

(** Big-endian bytes of a number, [n] of them. *)
Fixpoint be_bytes (n : nat) (x : Z) : list Z :=
  match n with
  | O => []
  | S m => Z.land (Z.shiftr x (8 * Z.of_nat m)) 0xFF :: be_bytes m x
  end.

Definition be_word (bs : list Z) : Z :=
  fold_left (fun acc b => acc * 256 + b) bs 0.

(** Padding: the bit 1, zero bits up to 56 modulo 64 bytes, then the
    length of the message in bits as a 64-bit big-endian number. *)
Definition pad (msg : list Z) : list Z :=
  let len := Z.of_nat (length msg) in
  let zeros := Z.to_nat ((55 - len) mod 64) in
  msg ++ [0x80] ++ replicate zeros 0 ++ be_bytes 8 (8 * len).

Fixpoint chunks {A} (size n : nat) (l : list A) : list (list A) :=
  match n with
  | O => []
  | S m => take size l :: chunks size m (drop size l)
  end.

(** The message schedule: sixteen words of the block, then forty-eight
    derived ones.  [w] holds the schedule so far, newest word first. *)
Fixpoint extend (n : nat) (w : list Z) : list Z :=
  match n with
  | O => w
  | S m =>
      let x := add32 (add32 (ssig1 (w !!! 1%nat)) (w !!! 6%nat))
                     (add32 (ssig0 (w !!! 14%nat)) (w !!! 15%nat)) in
      extend m (x :: w)
  end.

Definition schedule (block : list Z) : list Z :=
  let m := map be_word (chunks 4 16 block) in
  reverse (extend 48 (reverse m)).

Record state : Type := State { a : Z; b : Z; c : Z; d : Z; e : Z; f : Z; g : Z; h : Z }.

Definition round (s : state) (kw : Z * Z) : state :=
  let t1 := add32 (add32 (add32 (add32 (h s) (bsig1 (e s))) (Ch (e s) (f s) (g s))) kw.1) kw.2 in
  let t2 := add32 (bsig0 (a s)) (Maj (a s) (b s) (c s)) in
  State (add32 t1 t2) (a s) (b s) (c s) (add32 (d s) t1) (e s) (f s) (g s).

Definition compress (s : state) (block : list Z) : state :=
  let r := fold_left round (zip K (schedule block)) s in
  State (add32 (a s) (a r)) (add32 (b s) (b r)) (add32 (c s) (c r)) (add32 (d s) (d r))
        (add32 (e s) (e r)) (add32 (f s) (f r)) (add32 (g s) (g r)) (add32 (h s) (h r)).

Definition init : state :=
  State (H0 !!! 0%nat) (H0 !!! 1%nat) (H0 !!! 2%nat) (H0 !!! 3%nat)
        (H0 !!! 4%nat) (H0 !!! 5%nat) (H0 !!! 6%nat) (H0 !!! 7%nat).

Definition hash (msg : list Z) : state :=
  let p := pad msg in
  fold_left compress (chunks 64 (length p / 64) p) init.

(** [digest]: the thirty-two bytes of the final state. *)
Definition digest (msg : list Z) : list Z :=
  let s := hash msg in
  be_bytes 4 (a s) ++ be_bytes 4 (b s) ++ be_bytes 4 (c s) ++ be_bytes 4 (d s) ++
  be_bytes 4 (e s) ++ be_bytes 4 (f s) ++ be_bytes 4 (g s) ++ be_bytes 4 (h s).

End SHA256.

Module Hex.

(** The code point of the lower-case hexadecimal digit of a nibble. *)
Definition digit (n : Z) : Z := if n <? 10 then 48 + n else 87 + n.

Definition of_byte (x : Z) : pystr :=
  [digit (Z.land (Z.shiftr x 4) 0xF); digit (Z.land x 0xF)].

(** [bytes.hex()]: two lower-case digits per byte. *)
Definition of_bytes (bs : list Z) : pystr := bs ≫= of_byte.

Definition is_digit (c : Z) : Prop := 48 <= c <= 57 \/ 97 <= c <= 102.

End Hex.

(** [sha256(text)]: [hashlib.sha256(text.encode()).hexdigest()]. *)
Definition sha256 (text : pystr) : result pystr :=
  match Utf8.encode text with
  | inl e => inl e
  | inr bytes => inr (Hex.of_bytes (SHA256.digest bytes))
  end.

(** ** Documents and the document store *)

(** The values a field of a stored document holds in this program. *)
Inductive value : Type :=
  | VNull
  | VBool (b : bool)
  | VInt (n : Z)
  | VStr (s : pystr)
  | VList (l : list pystr).

Global Instance value_eq_dec : EqDecision value.
Proof. solve_decision. Defined.

(** Python truthiness, as [not x] and [if x] test it. *)
Definition truthy (v : value) : bool :=
  match v with
  | VNull => false
  | VBool b => b
  | VInt n => negb (n =? 0)
  | VStr s => negb (bool_decide (s = []))
  | VList l => negb (bool_decide (l = []))
  end.

(** [s != v] for a string [s] and any value [v]. *)
Definition str_ne (s : pystr) (v : value) : bool :=
  match v with
  | VStr t => negb (bool_decide (s = t))
  | _ => true
  end.

(** What the program takes from its libraries and its environment: bson's
    [ObjectId] (parsing and printing), the identifiers the store hands out,
    pydantic's coercion to [int] (which leaves an [int] as it is) and its
    [EmailStr] validation, the [DATABASE_URL] environment variable and the
    name of the database. *)
Class Libraries : Type := {
  oid : Type;
  oid_eq_dec :: EqDecision oid;
  ObjectId : pystr -> option oid;        (* [None]: raises InvalidId *)
  oid_str : oid -> pystr;                (* [str(oid)] *)
  generated_id : nat -> oid;             (* the n-th identifier handed out *)
  validate_int : value -> option Z;      (* [None]: not an int *)
  validate_int_int : forall n, validate_int (VInt n) = Some n;
  EmailStr : pystr -> option pystr;      (* [None]: not an address *)
  DATABASE_URL : option string;          (* [os.getenv("DATABASE_URL")] *)
  db_name : string                       (* [db.name] *)
}.

(** A row of the [$group] stage and the later stages of a pipeline. *)
Record row : Type := Row { row_id : value; row_score : Z }.

Inductive stage : Type :=
  | SortScore (direction : Z)    (* {"$sort": {"score": direction}} *)
  | Limit (n : nat).             (* {"$limit": n} *)

Definition descending (x y : row) : Prop := row_score y <= row_score x.
Definition ascending (x y : row) : Prop := row_score x <= row_score y.

Global Instance descending_dec : RelDecision descending.
Proof. intros x y. unfold descending. apply _. Defined.
Global Instance ascending_dec : RelDecision ascending.
Proof. intros x y. unfold ascending. apply _. Defined.

Global Instance descending_total : Total descending.
Proof. intros x y. unfold descending. lia. Qed.

Global Instance descending_trans : Transitive descending.
Proof. intros x y z. unfold descending. lia. Qed.

Fixpoint add_row (k : value) (n : Z) (rows : list row) : list row :=
  match rows with
  | [] => [Row k n]
  | r :: rest =>
      if decide (row_id r = k) then Row k (row_score r + n) :: rest
      else r :: add_row k n rest
  end.

Definition run_stage (rows : list row) (s : stage) : list row :=
  match s with
  | SortScore dir =>
      if dir <? 0 then merge_sort descending rows
      else merge_sort ascending rows
  | Limit n => take n rows
  end.

(** A number in a [$sum]: a value that is not a number adds nothing. *)
Definition numeric (v : value) : Z :=
  match v with VInt n => n | _ => 0 end.

Section Store.

Context `{L : Libraries}.

(** A stored document: its ["_id"] and its other fields. *)
Record document : Type := Doc { _id : oid; fields : gmap string value }.

(** [d.get(k, default)] and [d.get(k)] on the dict of a document. *)
Definition get_or (d : document) (k : string) (dflt : value) : value :=
  default dflt (fields d !! k).
Definition get (d : document) (k : string) : value := get_or d k VNull.

(** The dict of a document found in the store always has the key
    ["_id"], so it is truthy; [None] is falsy. *)
Definition found (o : option document) : bool :=
  match o with Some _ => true | None => false end.

(** A query: [{"_id": o}], [{k: v}], [{..., ...}] (all must
    hold) and [{"$or": [..., ...]}]. *)
Inductive query : Type :=
  | FId (o : oid)
  | FEq (k : string) (v : value)
  | FAnd (p q : query)
  | FOr (p q : query).

Fixpoint matches (q : query) (d : document) : bool :=
  match q with
  | FId o => bool_decide (_id d = o)
  | FEq k v => bool_decide (fields d !! k = Some v)
  | FAnd p r => matches p d && matches r d
  | FOr p r => matches p d || matches r d
  end.

(** The world a request runs in: the database handle ([db] is [None]
    when [db_present] is false), the collections by name, the outcome of
    the coming driver calls ([Some msg]: the call fails with that
    message; an exhausted list: no failure) and the number of identifiers
    handed out so far. *)
Record world : Type := World {
  db_present : bool;
  collections : gmap string (list document);
  outages : list (option string);
  issued : nat
}.

Definition coll (w : world) (name : string) : list document :=
  default [] (collections w !! name).

(** *** The monad of handlers: state and exceptions *)

Definition M (A : Type) : Type := world -> result A * world.

Global Instance M_ret : MRet M := fun A x w => (inr x, w).
Global Instance M_bind : MBind M := fun A B k m w =>
  match m w with
  | (inl e, w') => (inl e, w')
  | (inr x, w') => k x w'
  end.

Definition raise {A} (e : exn) : M A := fun w => (inl e, w).
Definition lift {A} (r : result A) : M A := fun w => (r, w).

(** [try: m except Exception as e: handler e]. *)
Definition try_except {A} (m : M A) (handler : exn -> M A) : M A := fun w =>
  match m w with
  | (inl e, w') => handler e w'
  | (inr x, w') => (inr x, w')
  end.

(** Reading the world, and replacing it while returning a value. *)
Definition gets {A} (f : world -> A) : M A := fun w => (inr (f w), w).
Definition update {A} (f : world -> A * world) : M A := fun w =>
  let (x, w') := f w in (inr x, w').

(** *** Driver calls *)

(** [db[name]]: the collection of that name; fails when [db] is [None]. *)
Definition db_getitem (name : string) : M string := fun w =>
  if db_present w then (inr name, w) else (inl TypeError, w).

(** One round trip to the store. *)
Definition driver_call : M unit := fun w =>
  match outages w with
  | [] => (inr (), w)
  | o :: rest =>
      let w' := World (db_present w) (collections w) rest (issued w) in
      match o with
      | Some msg => (inl (PyMongoError msg), w')
      | None => (inr (), w')
      end
  end.

(** [c.find_one(q)]: the first matching document, or [None]. *)
Definition find_one (c : string) (q : query) : M (option document) :=
  driver_call ;; gets (fun w => List.find (matches q) (coll w c)).

(** [c.find(q).limit(n)], read to the end. *)
Definition find_limit (c : string) (q : query) (n : nat) : M (list document) :=
  driver_call ;; gets (fun w => take n (List.filter (matches q) (coll w c))).

(** [c.insert_one(flds)]: the store assigns the identifier. *)
Definition insert_one (c : string) (flds : gmap string value) : M oid :=
  driver_call ;;
  update (fun w =>
    let o := generated_id (issued w) in
    (o, World (db_present w)
              (<[c := coll w c ++ [Doc o flds]]> (collections w))
              (outages w) (S (issued w)))).

(** The [$group] stage [{"_id": "$key", "score": {"$sum": "$field"}}]:
    a missing key groups under null. *)
Definition group_sum (key field : string) (docs : list document) : list row :=
  fold_left (fun rows d => add_row (get d key) (numeric (get d field)) rows) docs [].

(** [c.aggregate([{"$group": ...}] + stages)], read to the end. *)
Definition aggregate (c : string) (key field : string) (stages : list stage)
  : M (list row) :=
  driver_call ;;
  gets (fun w => fold_left run_stage stages (group_sum key field (coll w c))).

(** [db.list_collection_names()]. *)
Definition list_collection_names : M (list string) :=
  driver_call ;; gets (fun w => (map_to_list (collections w)).*1).

End Store.

(** ** The schemas of [schemas.py] *)

Definition opt_str (o : option pystr) : value := from_option VStr VNull o.
Definition opt_list (o : option (list pystr)) : value := from_option VList VNull o.

(** A pydantic model: [model_dump] gives the dict that is stored. *)
Class BaseModel (A : Type) : Type := model_dump : A -> gmap string value.

Module User.
Record t : Type := Make {
  username : pystr;
  email : pystr;
  password_hash : pystr;
  bio : option pystr;
  avatar_url : option pystr
}.
End User.

Module Challenge.
Record t : Type := Make {
  title : pystr;
  description : pystr;
  flag_hash : pystr;
  points : Z;
  author : pystr;
  tags : option (list pystr);
  is_active : bool
}.
End Challenge.

Module Solve.
Record t : Type := Make {
  challenge_id : pystr;
  username : pystr;
  points : Z
}.
End Solve.

Global Instance User_model : BaseModel User.t := fun u =>
  <["username" := VStr (User.username u)]>
  (<["email" := VStr (User.email u)]>
  (<["password_hash" := VStr (User.password_hash u)]>
  (<["bio" := opt_str (User.bio u)]>
  (<["avatar_url" := opt_str (User.avatar_url u)]> ∅)))).

Global Instance Challenge_model : BaseModel Challenge.t := fun c =>
  <["title" := VStr (Challenge.title c)]>
  (<["description" := VStr (Challenge.description c)]>
  (<["flag_hash" := VStr (Challenge.flag_hash c)]>
  (<["points" := VInt (Challenge.points c)]>
  (<["author" := VStr (Challenge.author c)]>
  (<["tags" := opt_list (Challenge.tags c)]>
  (<["is_active" := VBool (Challenge.is_active c)]> ∅)))))).

Global Instance Solve_model : BaseModel Solve.t := fun s =>
  <["challenge_id" := VStr (Solve.challenge_id s)]>
  (<["username" := VStr (Solve.username s)]>
  (<["points" := VInt (Solve.points s)]> ∅)).

Section Schemas.

Context `{L : Libraries}.

(** [int] with [Field(..., ge=0)]. *)
Definition int_ge0 (v : value) : result Z :=
  match validate_int v with
  | Some n => if 0 <=? n then inr n else inl ValidationError
  | None => inl ValidationError
  end.

(** The constructors validate their arguments, in the order of the fields. *)
Definition UserSchema (username email password_hash : pystr)
    (bio avatar_url : option pystr) : result User.t :=
  match EmailStr email with
  | Some email' => inr (User.Make username email' password_hash bio avatar_url)
  | None => inl ValidationError
  end.

Definition ChallengeSchema (title description flag_hash : pystr) (points : value)
    (author : pystr) (tags : option (list pystr)) (is_active : bool)
    : result Challenge.t :=
  match int_ge0 points with
  | inr n => inr (Challenge.Make title description flag_hash n author tags is_active)
  | inl e => inl e
  end.

Definition SolveSchema (challenge_id username : pystr) (points : value)
    : result Solve.t :=
  match int_ge0 points with
  | inr n => inr (Solve.Make challenge_id username n)
  | inl e => inl e
  end.

End Schemas.

(** ** The requests and responses of [main.py] *)

Module RegisterRequest.
Record t : Type := Make { username : pystr; email : pystr; password : pystr }.
End RegisterRequest.

Module LoginRequest.
Record t : Type := Make { username : pystr; password : pystr }.
End LoginRequest.

Module SubmitChallengeRequest.
Record t : Type := Make {
  title : pystr;
  description : pystr;
  flag : pystr;
  points : Z;
  tags : option (list pystr)
}.
End SubmitChallengeRequest.

Module SubmitFlagRequest.
Record t : Type := Make { challenge_id : pystr; flag : pystr }.
End SubmitFlagRequest.

(** The dict [test_database] fills in and returns. *)
Record diagnostic : Type := Diagnostic {
  backend : string;
  database : string;
  database_url : option string;
  database_name : option string;
  connection_status : string;
  collection_names : list string
}.

(** One item of the leaderboard: [{"username": ..., "score": ...}]. *)
Record standing : Type := Standing { standing_username : value; standing_score : Z }.

(** The JSON bodies the handlers return; all but the first two carry
    ["ok": True]. *)
Inductive response : Type :=
  | RootStatus (name status : string)
  | TestReport (report : diagnostic)
  | Registered (user_id : pystr)
  | LoggedIn (username : value)
  | Contributed (challenge_id : pystr)
  | ChallengeItems (items : list (gmap string value))
  | FlagAccepted (message : string)
  | LeaderboardItems (items : list standing).

Inductive request : Type :=
  | GET_root
  | GET_test
  | POST_register (payload : RegisterRequest.t)
  | POST_login (payload : LoginRequest.t)
  | POST_challenges (payload : SubmitChallengeRequest.t)
  | GET_challenges
  | POST_submit_flag (payload : SubmitFlagRequest.t)
  | GET_leaderboard.

Section Endpoints.

Context `{L : Libraries}.

(** Modelled from the spec: [database.create_document], which is not among
    the sources.  "create(collection, record): assigns a store-generated
    unique identifier, persists the record, returns the identifier as an
    opaque string." *)
Definition create_document `{BaseModel A} (collection_name : string) (data : A)
    : M pystr :=
  c ← db_getitem collection_name;
  o ← insert_one c (model_dump data);
  mret (oid_str o).

(** Modelled from the spec: [database.get_documents], which is not among
    the sources.  "find_many(collection, filter, limit): returns up to
    limit matching documents, store-defined order." *)
Definition get_documents (collection_name : string) (filter_dict : query)
    (limit : nat) : M (list document) :=
  c ← db_getitem collection_name;
  find_limit c filter_dict limit.

Definition read_root : M response :=
  mret (RootStatus "MANGESTIC CTF" "ok").

Definition test_database : M response :=
  let response :=
    Diagnostic "✅ Running" "❌ Not Available" None None "Not Connected" [] in
  response ← try_except
    (present ← gets db_present;
     if (present : bool) then
       let response :=
         Diagnostic (backend response) "✅ Available"
           (Some (if bool_decide (DATABASE_URL = None ∨ DATABASE_URL = Some ""%string)
                  then "❌ Not Set" else "✅ Set"))
           (Some db_name) "Connected" (collection_names response) in
       try_except
         (collections ← list_collection_names;
          mret (Diagnostic (backend response) "✅ Connected & Working"
                  (database_url response) (database_name response)
                  (connection_status response) (take 10 collections)))
         (fun e =>
            mret (Diagnostic (backend response)
                    ("⚠️  Connected but Error: " +:+ String.substring 0 50 (exn_str e))
                    (database_url response) (database_name response)
                    (connection_status response) (collection_names response)))
     else
       mret (Diagnostic (backend response) "⚠️  Available but not initialized"
               (database_url response) (database_name response)
               (connection_status response) (collection_names response)))
    (fun e =>
       mret (Diagnostic (backend response)
               ("❌ Error: " +:+ String.substring 0 50 (exn_str e))
               (database_url response) (database_name response)
               (connection_status response) (collection_names response)));
  mret (TestReport response).

Definition register (payload : RegisterRequest.t) : M response :=
  c ← db_getitem "user";
  existing ← find_one c
    (FOr (FEq "username" (VStr (RegisterRequest.username payload)))
         (FEq "email" (VStr (RegisterRequest.email payload))));
  if found existing then
    raise (HTTPException 400 "Username or email already exists")
  else
    hashed ← lift (sha256 (RegisterRequest.password payload));
    user ← lift (UserSchema (RegisterRequest.username payload)
                   (RegisterRequest.email payload) hashed None None);
    user_id ← create_document "user" user;
    mret (Registered user_id).

Definition login (payload : LoginRequest.t) : M response :=
  hashed ← lift (sha256 (LoginRequest.password payload));
  c ← db_getitem "user";
  user ← find_one c
    (FAnd (FEq "username" (VStr (LoginRequest.username payload)))
          (FEq "password_hash" (VStr hashed)));
  match user with
  | None => raise (HTTPException 401 "Invalid credentials")
  | Some user => mret (LoggedIn (get user "username"))
  end.

Definition contribute_challenge (payload : SubmitChallengeRequest.t) : M response :=
  hashed ← lift (sha256 (SubmitChallengeRequest.flag payload));
  ch ← lift (ChallengeSchema (SubmitChallengeRequest.title payload)
               (SubmitChallengeRequest.description payload) hashed
               (VInt (SubmitChallengeRequest.points payload))
               (py "anonymous") (SubmitChallengeRequest.tags payload) true);
  ch_id ← create_document "challenge" ch;
  mret (Contributed ch_id).

(** The body of the loop of [list_challenges] on one item. *)
Definition public_item (it : document) : gmap string value :=
  delete "flag_hash" (<["_id" := VStr (oid_str (_id it))]> (fields it)).

Definition list_challenges : M response :=
  items ← get_documents "challenge" (FEq "is_active" (VBool true)) 100;
  mret (ChallengeItems (map public_item items)).

Definition submit_flag (payload : SubmitFlagRequest.t) : M response :=
  ch ← try_except
    (c ← db_getitem "challenge";
     o ← lift (from_option inr (inl InvalidId)
                 (ObjectId (SubmitFlagRequest.challenge_id payload)));
     find_one c (FId o))
    (fun _ => raise (HTTPException 400 "Invalid challenge id"));
  match ch with
  | None => raise (HTTPException 404 "Challenge not found")
  | Some ch =>
      if negb (truthy (get_or ch "is_active" (VBool true))) then
        raise (HTTPException 404 "Challenge not found")
      else
        hashed ← lift (sha256 (SubmitFlagRequest.flag payload));
        if str_ne hashed (get ch "flag_hash") then
          raise (HTTPException 400 "Incorrect flag")
        else
          solve ← lift (SolveSchema (oid_str (_id ch)) (py "anonymous")
                          (get_or ch "points" (VInt 0)));
          _ ← create_document "solve" solve;
          mret (FlagAccepted "Flag accepted")
  end.

Definition leaderboard : M response :=
  c ← db_getitem "solve";
  rows ← aggregate c "username" "points" [SortScore (-1); Limit 50];
  mret (LeaderboardItems (map (fun r => Standing (row_id r) (row_score r)) rows)).

(** The routes of [app]. *)
Definition app (r : request) : M response :=
  match r with
  | GET_root => read_root
  | GET_test => test_database
  | POST_register p => register p
  | POST_login p => login p
  | POST_challenges p => contribute_challenge p
  | GET_challenges => list_challenges
  | POST_submit_flag p => submit_flag p
  | GET_leaderboard => leaderboard
  end.

End Endpoints.

(** Serving requests one after the other, whatever their outcomes. *)
Fixpoint serve `{L : Libraries} (rs : list request) (w : world) : world :=
  match rs with
  | [] => w
  | r :: rs' => serve rs' (app r w).2
  end.

(** ** The notions the theorems are stated with *)

Section Notions.

Context `{L : Libraries}.

(** The store answers: the handle is there and no driver call fails. *)
Definition store_up (w : world) : Prop :=
  db_present w = true /\ outages w = [].

(** The store keeps ["_id"] unique within a collection. *)
Definition unique_ids (w : world) (c : string) : Prop :=
  NoDup (_id <$> coll w c).

(** The sum of the points of the solves of one username. *)
Definition total_points (u : value) (solves : list document) : Z :=
  foldr Z.add 0
    ((fun d => numeric (get d "points")) <$> filter (fun d => get d "username" = u) solves).

(** The score a key has in the rows of a group stage. *)
Definition score_in (rows : list row) (k : value) : Z :=
  foldr Z.add 0 (row_score <$> filter (fun r => row_id r = k) rows).

(** The fields of a User, a Challenge and a Solve as they are stored. *)
Definition user_fields (username email password_hash : pystr) : gmap string value :=
  model_dump (User.Make username email password_hash None None).

Definition solve_fields (challenge_id : pystr) (points : Z) : gmap string value :=
  model_dump (Solve.Make challenge_id (py "anonymous") points).

(** The world after the store has recorded a new document. *)
Definition record_in (w : world) (c : string) (flds : gmap string value) : world :=
  World (db_present w)
        (<[c := coll w c ++ [Doc (generated_id (issued w)) flds]]> (collections w))
        (outages w) (S (issued w)).

(** What a successful submission leaves behind: one more Solve, with the
    identifier of the challenge, the placeholder username and [n] points;
    nothing else changes. *)
Definition one_solve_created (w w' : world) (o : oid) (n : Z) : Prop :=
  exists s : document,
    coll w' "solve" = coll w "solve" ++ [s] /\
    fields s !! "points" = Some (VInt n) /\
    fields s !! "challenge_id" = Some (VStr (oid_str o)) /\
    fields s !! "username" = Some (VStr (py "anonymous")) /\
    forall c : string, c <> "solve" -> coll w' c = coll w c.

(** Some stored user has the string [s] in its field [k]. *)
Definition taken (w : world) (k : string) (s : pystr) : Prop :=
  exists d : document, d ∈ coll w "user" /\ fields d !! k = Some (VStr s).

(** Some stored user has this username and this password hash. *)
Definition credentials_match (w : world) (username hashed : pystr) : Prop :=
  exists d : document,
    d ∈ coll w "user" /\
    fields d !! "username" = Some (VStr username) /\
    fields d !! "password_hash" = Some (VStr hashed).

(** The world [w'] is [w] with the document [d] added at the end of the
    collection [c], and nothing else changed. *)
Definition one_created (w w' : world) (c : string) (d : document) : Prop :=
  coll w' c = coll w c ++ [d] /\
  forall c' : string, c' <> c -> coll w' c' = coll w c'.

(** Every collection of [w'] starts with what it holds in [w]. *)
Definition extends (w w' : world) : Prop :=
  forall c : string, coll w c `prefix_of` coll w' c.

(** A computation that, whatever its outcome, only adds documents. *)
Definition appends_only {A} (m : M A) : Prop :=
  forall w : world, extends w (m w).2.

End Notions.

(** ** What the handlers store, and how they touch the store *)

Section Conformance.

Context `{L : Libraries}.

(** The text of a digest: 64 lower-case hexadecimal digits. *)
Definition digest_text (h : pystr) : Prop :=
  length h = 64%nat /\ Forall Hex.is_digit h.

(** A document of the collection [c] as the handlers create it: the dump
    of a User with a digest as password_hash; of a Challenge with a digest
    as flag_hash, points that are not negative, the placeholder author and
    is_active true; of a Solve with the placeholder username and points that
    are not negative.  The handlers write to no other collection. *)
Definition conforms (c : string) (d : document) : Prop :=
  if decide (c = "user") then
    exists u e h, fields d = user_fields u e h /\ digest_text h
  else if decide (c = "challenge") then
    exists t ds h n tags,
      fields d = model_dump (Challenge.Make t ds h n (py "anonymous") tags true) /\
      digest_text h /\ 0 <= n
  else if decide (c = "solve") then
    exists cid n, fields d = solve_fields cid n /\ 0 <= n
  else False.

Definition schema_ok (w : world) : Prop :=
  forall (c : string) (d : document), d ∈ coll w c -> conforms c d.

(** From [w] to [w']: a store that answers still answers, and every
    collection has only gained documents that conform. *)
Definition grows (w w' : world) : Prop :=
  (store_up w -> store_up w') /\
  forall c : string,
    exists added, coll w' c = coll w c ++ added /\ Forall (conforms c) added.

(** A computation that makes the world grow, and whose result, when there
    is one, satisfies [Q]. *)
Definition sound {A} (Q : A -> Prop) (m : M A) : Prop :=
  forall w : world, grows w (m w).2 /\ forall x, (m w).1 = inr x -> Q x.

(** A computation that leaves the collections as they are; one that does so
    whenever it raises. *)
Definition readonly {A} (m : M A) : Prop :=
  forall w : world, collections (m w).2 = collections w.
Definition atomic {A} (m : M A) : Prop :=
  forall (w : world) (e : exn), (m w).1 = inl e -> collections (m w).2 = collections w.

(** The requests whose handlers call no [create_document]. *)
Definition is_read (r : request) : bool :=
  match r with
  | GET_root | GET_test | POST_login _ | GET_challenges | GET_leaderboard => true
  | POST_register _ | POST_challenges _ | POST_submit_flag _ => false
  end.

(** A world with the same store, for other circumstances of a request. *)
Definition with_outages (w : world) (o : list (option string)) : world :=
  World (db_present w) (collections w) o (issued w).
Definition without_db (w : world) : world :=
  World false (collections w) (outages w) (issued w).

(** What [test_database] puts under "database_url". *)
Definition url_report : option string :=
  Some (if bool_decide (DATABASE_URL = None \/ DATABASE_URL = Some ""%string)
        then "❌ Not Set" else "✅ Set")%string.

End Conformance.

(** ** A concrete instance of the libraries *)

Module Demo.

Definition hex_value (c : Z) : option Z :=
  if (48 <=? c) && (c <=? 57) then Some (c - 48)
  else if (97 <=? c) && (c <=? 102) then Some (c - 87)
  else if (65 <=? c) && (c <=? 70) then Some (c - 55)
  else None.

Fixpoint parse_hex (s : pystr) (acc : Z) : option Z :=
  match s with
  | [] => Some acc
  | c :: s' =>
      match hex_value c with
      | Some v => parse_hex s' (16 * acc + v)
      | None => None
      end
  end.

(** An ObjectId is a number of twelve bytes, written as 24 hexadecimal digits. *)
Definition parse_oid (s : pystr) : option Z :=
  if bool_decide (length s = 24%nat) then parse_hex s 0 else None.

Definition print_oid (o : Z) : pystr := Hex.of_bytes (SHA256.be_bytes 12 o).

Definition to_int (v : value) : option Z :=
  match v with
  | VInt n => Some n
  | VBool b => Some (if b then 1 else 0)
  | _ => None
  end.

(** An address has an at sign; it is kept as it is. *)
Definition check_email (s : pystr) : option pystr :=
  if bool_decide (64 ∈ s) then Some s else None.

Definition libraries : Libraries := {|
  oid := Z;
  ObjectId := parse_oid;
  oid_str := print_oid;
  generated_id := fun n => 0x650000000000000000000000 + Z.of_nat n;
  validate_int := to_int;
  validate_int_int := fun n => eq_refl;
  EmailStr := check_email;
  DATABASE_URL := Some "mongodb://localhost:27017"%string;
  db_name := "ctf"
|}.

Definition empty_world : @world libraries := World true ∅ [] 0.

Definition digest_of (s : pystr) : pystr :=
  match sha256 s with inr d => d | inl _ => [] end.

(** A store with one user, three challenges (the challenge of the
    end-to-end scenario of the specification, a retired one and one that
    has nothing but its flag hash) and three solves. *)
Definition flag_abc : pystr := Eval vm_compute in digest_of (py "flag{abc}").
Definition pw123 : pystr := Eval vm_compute in digest_of (py "pw123").

Definition alice : @document libraries :=
  @Doc libraries 0x650000000000000000000000%Z
      (model_dump (User.Make (py "alice") (py "alice@example.com") pw123 None None)).
Definition warmup : @document libraries :=
  @Doc libraries 0x650000000000000000000001%Z
      (model_dump (Challenge.Make (py "Warmup") (py "") flag_abc 100
                     (py "anonymous") None true)).
Definition retired : @document libraries :=
  @Doc libraries 0x650000000000000000000002%Z
      (model_dump (Challenge.Make (py "Retired") (py "") flag_abc 50
                     (py "anonymous") None false)).
Definition bare : @document libraries :=
  @Doc libraries 0x650000000000000000000003%Z {["flag_hash" := VStr flag_abc]}.

Definition solved (id : Z) (username : pystr) (points : Z) : @document libraries :=
  @Doc libraries id (model_dump (Solve.Make (py "650000000000000000000001") username points)).

Definition ctf : @world libraries :=
  World true
    (<["user" := [alice]]>
     (<["challenge" := [warmup; retired; bare]]>
     (<["solve" := [solved 0x650000000000000000000004%Z (py "bob") 100;
                    solved 0x650000000000000000000005%Z (py "carol") 150;
                    solved 0x650000000000000000000006%Z (py "bob") 100]]> ∅)))
    [] 7.

Definition submission (challenge_id flag : string) : SubmitFlagRequest.t :=
  SubmitFlagRequest.Make (py challenge_id) (py flag).

(** The same store when its next round trip fails. *)
Definition ctf_failing : @world libraries :=
  World true (collections ctf) [Some "connection refused"%string] 7.

End Demo.

(** ** Further stores and requests, for the properties of the handlers *)

Module Cases.

(** The demonstration store without its database handle. *)
Definition no_db : @world Demo.libraries := without_db Demo.ctf.

(** Challenges that no handler stores: one whose is_active is null, one
    with negative points and one whose points are a string. *)
Definition odd_challenge (id : Z) (points is_active : value) : @document Demo.libraries :=
  @Doc Demo.libraries id
    (<["flag_hash" := VStr Demo.flag_abc]>
     (<["points" := points]> (<["is_active" := is_active]> ∅))).

Definition nullified := odd_challenge 0x650000000000000000000011 (VInt 10) VNull.
Definition debt := odd_challenge 0x650000000000000000000012 (VInt (-5)) (VBool true).
Definition textual := odd_challenge 0x650000000000000000000013 (VStr (py "ten")) (VBool true).

Definition odd : @world Demo.libraries :=
  World true (<["challenge" := [nullified; debt; textual]]> ∅) [] 20.

(** A store whose solves are all those of the placeholder username. *)
Definition played : @world Demo.libraries :=
  World true
    (<["solve" := [Demo.solved 0x650000000000000000000021 (py "anonymous") 100;
                   Demo.solved 0x650000000000000000000022 (py "anonymous") 50]]> ∅)
    [] 40.

Definition alice : RegisterRequest.t :=
  RegisterRequest.Make (py "alice") (py "alice@example.com") (py "pw123").
Definition bob : RegisterRequest.t :=
  RegisterRequest.Make (py "bob") (py "bob@example.com") (py "hunter2").
Definition warmup : SubmitChallengeRequest.t :=
  SubmitChallengeRequest.Make (py "Warmup") (py "") (py "flag{abc}") 100 None.

(** The requests of the end-to-end scenario. *)
Definition scenario : list request :=
  [POST_register alice; POST_challenges warmup;
   POST_submit_flag (Demo.submission "650000000000000000000001" "flag{abc}");
   POST_submit_flag (Demo.submission "650000000000000000000001" "flag{abc}")].

End Cases.

(** * Theorems *)

(** ** The hashing utility *)

Example sha256_empty :
  sha256 (py "") = inr (py "e3b0c44298fc1c149afbf4c8996fb92427ae41e4649b934ca495991b7852b855").
Proof. vm_compute. reflexivity. Qed.

Example sha256_abc :
  sha256 (py "abc") = inr (py "ba7816bf8f01cfea414140de5dae2223b00361a396177a9cb410ff61f20015ad").
Proof. vm_compute. reflexivity. Qed.

Example sha256_two_blocks :
  sha256 (py "abcdbcdecdefdefgefghfghighijhijkijkljklmklmnlmnomnopnopq")
  = inr (py "248d6a61d20638b8e5c026930c3e6039a33ce45964ff2167f6ecedd419db06c1").
Proof. vm_compute. reflexivity. Qed.

(** The round constants and the initial state are those of FIPS 180-4. *)
Example sha256_constants :
  SHA256.K !! 0%nat = Some 0x428a2f98 /\ SHA256.K !! 63%nat = Some 0xc67178f2 /\
  SHA256.H0 !! 0%nat = Some 0x6a09e667 /\ SHA256.H0 !! 7%nat = Some 0x5be0cd19.
Proof. repeat split. Qed.

(** A non-ASCII string: U+00E9, U+20AC and U+1F600 take two, three and four bytes. *)
Example utf8_encode_multibyte :
  Utf8.encode [0xE9; 0x20AC; 0x1F600]
  = inr [0xC3; 0xA9; 0xE2; 0x82; 0xAC; 0xF0; 0x9F; 0x98; 0x80].
Proof. reflexivity. Qed.

Ltac case_ltb :=
  repeat match goal with
         | |- context [?x <? ?y] => destruct (Z.ltb_spec x y)
         | |- context [?x <=? ?y] => destruct (Z.leb_spec x y)
         end.

Lemma encode_point_scalar (c : Z) :
  scalar_value c -> exists bs, Utf8.encode_point c = Some bs.
Proof.
  intros [[Hlo Hhi] Hs]. unfold Utf8.encode_point. rewrite Hs.
  case_ltb; eauto; lia.
Qed.

Lemma encode_point_surrogate (c : Z) :
  surrogate c = true -> Utf8.encode_point c = None.
Proof.
  intros Hs. unfold Utf8.encode_point. rewrite Hs.
  unfold surrogate in Hs. apply andb_true_iff in Hs as [H1%Z.leb_le H2%Z.leb_le].
  case_ltb; try reflexivity; lia.
Qed.

Lemma encode_scalar (s : pystr) :
  Forall scalar_value s -> exists bs, Utf8.encode s = inr bs.
Proof.
  induction 1 as [|c s Hc _ [rest IH]]; simpl; [eauto|].
  destruct (encode_point_scalar c Hc) as [bs ->]. rewrite IH. eauto.
Qed.

Lemma encode_error (s : pystr) (e : exn) :
  Utf8.encode s = inl e -> e = UnicodeEncodeError.
Proof.
  revert e. induction s as [|c s IH]; simpl; intros e; [discriminate|].
  destruct (Utf8.encode_point c); [|congruence].
  destruct (Utf8.encode s) as [e'|]; [|discriminate].
  intros [= <-]. by apply IH.
Qed.

Lemma encode_surrogate (s : pystr) :
  Exists (fun c => surrogate c = true) s -> Utf8.encode s = inl UnicodeEncodeError.
Proof.
  induction 1 as [c s Hc|c s _ IH]; simpl.
  - by rewrite encode_point_surrogate.
  - destruct (Utf8.encode_point c); [|done]. by rewrite IH.
Qed.

Lemma be_bytes_length (n : nat) (x : Z) : length (SHA256.be_bytes n x) = n.
Proof. induction n; simpl; congruence. Qed.

Lemma digest_length (msg : list Z) : length (SHA256.digest msg) = 32%nat.
Proof. unfold SHA256.digest. rewrite !length_app, !be_bytes_length. reflexivity. Qed.

Lemma hex_of_bytes_length (bs : list Z) :
  length (Hex.of_bytes bs) = (2 * length bs)%nat.
Proof.
  unfold Hex.of_bytes. induction bs as [|x bs IH]; [done|].
  rewrite bind_cons, length_app, IH. simpl. lia.
Qed.

Lemma hex_digit_nibble (x : Z) : Hex.is_digit (Hex.digit (Z.land x 0xF)).
Proof.
  change 0xF with (Z.ones 4). rewrite Z.land_ones by lia.
  pose proof (Z.mod_pos_bound x (2 ^ 4) ltac:(lia)).
  unfold Hex.is_digit, Hex.digit. case_ltb; lia.
Qed.

Lemma hex_of_bytes_digits (bs : list Z) : Forall Hex.is_digit (Hex.of_bytes bs).
Proof.
  unfold Hex.of_bytes. induction bs as [|x bs IH]; [constructor|].
  rewrite bind_cons. apply Forall_app. split; [|exact IH].
  unfold Hex.of_byte. repeat apply Forall_cons_2; auto using hex_digit_nibble.
Qed.

Lemma sha256_scalar_digest (s : pystr) :
  Forall scalar_value s ->
  exists digest,
    sha256 s = inr digest /\ length digest = 64%nat /\ Forall Hex.is_digit digest.
Proof.
  intros Hs. destruct (encode_scalar s Hs) as [bs Hbs].
  exists (Hex.of_bytes (SHA256.digest bs)). unfold sha256. rewrite Hbs.
  split; [reflexivity|]. split.
  - rewrite hex_of_bytes_length, digest_length. reflexivity.
  - apply hex_of_bytes_digits.
Qed.

(** C6, as the code has it: on every string of Unicode scalar values (one
    that UTF-8 can encode) [sha256] returns a digest, the function of the
    string alone, that is 64 characters long and made of lower-case
    hexadecimal digits. *)
Theorem sha256_total_on_scalar_values (s : pystr) :
  Forall scalar_value s ->
  exists digest,
    sha256 s = inr digest /\ length digest = 64%nat /\ Forall Hex.is_digit digest /\
    forall r, sha256 s = r -> r = inr digest.
Proof.
  intros Hs. destruct (sha256_scalar_digest s Hs) as (digest & Hd & Hlen & Hhex).
  exists digest. repeat split; try done. intros r <-. exact Hd.
Qed.

Lemma sha256_total_on_scalar_values_witness :
  exists digest,
    sha256 (py "flag{abc}") = inr digest /\ length digest = 64%nat /\
    Forall Hex.is_digit digest /\
    forall r, sha256 (py "flag{abc}") = r -> r = inr digest.
Proof.
  apply sha256_total_on_scalar_values.
  repeat constructor; vm_compute; congruence.
Defined.

(** C6, as the claim states it, fails: a string may hold a surrogate code
    point, and hashing it raises. *)
Lemma sha256_not_total :
  Forall code_point [0xD800] /\ sha256 [0xD800] = inl UnicodeEncodeError /\
  ~ (forall s : pystr, Forall code_point s -> exists digest, sha256 s = inr digest).
Proof.
  assert (Hcp : Forall code_point [0xD800]) by (repeat constructor; vm_compute; congruence).
  split; [exact Hcp|]. split; [reflexivity|].
  intros Hall. destruct (Hall [0xD800] Hcp) as [digest Hd]. discriminate Hd.
Qed.

(** X9.  Hashing raises exactly on the strings that hold a surrogate. *)
Lemma sha256_raises_iff (s : pystr) :
  Forall code_point s ->
  (exists e, sha256 s = inl e) <-> Exists (fun c => surrogate c = true) s.
Proof.
  intros Hcp. split.
  - intros [e He].
    destruct (decide (Exists (fun c => surrogate c = true) s)) as [|Hns]; [done|].
    apply not_Exists_Forall in Hns; [|intros c; apply _].
    destruct (sha256_scalar_digest s) as (d & Hd & _); [|congruence].
    apply Forall_forall. intros c Hc. split.
    + by eapply Forall_forall in Hcp.
    + eapply Forall_forall in Hns; [|done]. simpl in Hns. by destruct (surrogate c).
  - intros Hex. exists UnicodeEncodeError. unfold sha256. by rewrite encode_surrogate.
Qed.

(** ** The store and the monad *)

Section StoreFacts.

Context `{L : Libraries}.

Lemma coll_record_in_eq (w : world) (c : string) (flds : gmap string value) :
  coll (record_in w c flds) c = coll w c ++ [Doc (generated_id (issued w)) flds].
Proof. unfold coll at 1, record_in. simpl. by rewrite lookup_insert_eq. Qed.

Lemma coll_record_in_ne (w : world) (c c' : string) (flds : gmap string value) :
  c <> c' -> coll (record_in w c flds) c' = coll w c'.
Proof. intros Hne. unfold coll, record_in. simpl. by rewrite lookup_insert_ne. Qed.

Lemma store_up_record_in (w : world) (c : string) (flds : gmap string value) :
  store_up w -> store_up (record_in w c flds).
Proof. intros [? ?]. by split. Qed.

Lemma db_getitem_up (name : string) (w : world) :
  store_up w -> db_getitem name w = (inr name, w).
Proof. intros [Hdb _]. unfold db_getitem. by rewrite Hdb. Qed.

Lemma driver_call_up (w : world) : store_up w -> driver_call w = (inr (), w).
Proof. intros [_ Hout]. unfold driver_call. by rewrite Hout. Qed.

Lemma find_one_up (c : string) (q : query) (w : world) :
  store_up w -> find_one c q w = (inr (List.find (matches q) (coll w c)), w).
Proof.
  intros Hup. unfold find_one, mbind, M_bind. by rewrite driver_call_up.
Qed.

Lemma find_limit_up (c : string) (q : query) (n : nat) (w : world) :
  store_up w ->
  find_limit c q n w = (inr (take n (List.filter (matches q) (coll w c))), w).
Proof.
  intros Hup. unfold find_limit, mbind, M_bind. by rewrite driver_call_up.
Qed.

Lemma insert_one_up (c : string) (flds : gmap string value) (w : world) :
  store_up w ->
  insert_one c flds w = (inr (generated_id (issued w)), record_in w c flds).
Proof.
  intros Hup. unfold insert_one, mbind, M_bind. by rewrite driver_call_up.
Qed.

Lemma create_document_up `{BaseModel A} (c : string) (data : A) (w : world) :
  store_up w ->
  create_document c data w
  = (inr (oid_str (generated_id (issued w))), record_in w c (model_dump data)).
Proof.
  intros Hup. unfold create_document, mbind, M_bind.
  rewrite db_getitem_up by done. by rewrite insert_one_up.
Qed.

Lemma get_documents_up (c : string) (q : query) (n : nat) (w : world) :
  store_up w ->
  get_documents c q n w = (inr (take n (List.filter (matches q) (coll w c))), w).
Proof.
  intros Hup. unfold get_documents, mbind, M_bind.
  rewrite db_getitem_up by done. by apply find_limit_up.
Qed.

Lemma aggregate_up (c key field : string) (stages : list stage) (w : world) :
  store_up w ->
  aggregate c key field stages w
  = (inr (fold_left run_stage stages (group_sum key field (coll w c))), w).
Proof.
  intros Hup. unfold aggregate, mbind, M_bind. by rewrite driver_call_up.
Qed.

(** Looking a document up by its identifier. *)
Lemma find_id_none (docs : list document) (o : oid) :
  (forall d, d ∈ docs -> _id d <> o) -> List.find (matches (FId o)) docs = None.
Proof.
  induction docs as [|d docs IH]; intros Hall; simpl; [done|].
  rewrite bool_decide_false by (apply Hall; left).
  apply IH. intros d' Hd'. apply Hall. by right.
Qed.

Lemma find_id_unique (docs : list document) (ch : document) :
  NoDup (_id <$> docs) -> ch ∈ docs ->
  List.find (matches (FId (_id ch))) docs = Some ch.
Proof.
  induction docs as [|d docs IH]; intros Hnd Hin; [by apply elem_of_nil in Hin|].
  rewrite fmap_cons in Hnd. apply NoDup_cons in Hnd as [Hd Hnd]. simpl.
  apply elem_of_cons in Hin as [->|Hin].
  - by rewrite bool_decide_true.
  - rewrite bool_decide_false; [by apply IH|].
    intros Heq. apply Hd. rewrite Heq. by apply list_elem_of_fmap_2.
Qed.

Lemma int_ge0_int (n : Z) : 0 <= n -> int_ge0 (VInt n) = inr n.
Proof.
  intros Hn. unfold int_ge0. rewrite validate_int_int.
  by destruct (Z.leb_spec 0 n); [|lia].
Qed.

Lemma int_ge0_negative (n : Z) : n < 0 -> int_ge0 (VInt n) = inl ValidationError.
Proof.
  intros Hn. unfold int_ge0. rewrite validate_int_int.
  by destruct (Z.leb_spec 0 n); [lia|].
Qed.

End StoreFacts.

(** ** Flag submission *)

Section SubmitFlag.

Context `{L : Libraries}.
Implicit Types (p : SubmitFlagRequest.t) (w : world) (ch : document).

Ltac lookup_step Hup :=
  unfold submit_flag, try_except, mbind, M_bind, lift, raise;
  rewrite (db_getitem_up _ _ Hup).

Lemma submit_flag_malformed p w :
  store_up w ->
  ObjectId (SubmitFlagRequest.challenge_id p) = None ->
  submit_flag p w = (inl (HTTPException 400 "Invalid challenge id"), w).
Proof. intros Hup Hid. lookup_step Hup. by rewrite Hid. Qed.

Lemma submit_flag_missing p w o :
  store_up w ->
  ObjectId (SubmitFlagRequest.challenge_id p) = Some o ->
  List.find (matches (FId o)) (coll w "challenge") = None ->
  submit_flag p w = (inl (HTTPException 404 "Challenge not found"), w).
Proof.
  intros Hup Hid Hfind. lookup_step Hup. rewrite Hid. simpl.
  rewrite (find_one_up _ _ _ Hup), Hfind. reflexivity.
Qed.

Lemma submit_flag_inactive p w o ch :
  store_up w ->
  ObjectId (SubmitFlagRequest.challenge_id p) = Some o ->
  List.find (matches (FId o)) (coll w "challenge") = Some ch ->
  truthy (get_or ch "is_active" (VBool true)) = false ->
  submit_flag p w = (inl (HTTPException 404 "Challenge not found"), w).
Proof.
  intros Hup Hid Hfind Hact. lookup_step Hup. rewrite Hid. simpl.
  rewrite (find_one_up _ _ _ Hup), Hfind, Hact. reflexivity.
Qed.

Lemma submit_flag_wrong p w o ch hashed :
  store_up w ->
  ObjectId (SubmitFlagRequest.challenge_id p) = Some o ->
  List.find (matches (FId o)) (coll w "challenge") = Some ch ->
  truthy (get_or ch "is_active" (VBool true)) = true ->
  sha256 (SubmitFlagRequest.flag p) = inr hashed ->
  str_ne hashed (get ch "flag_hash") = true ->
  submit_flag p w = (inl (HTTPException 400 "Incorrect flag"), w).
Proof.
  intros Hup Hid Hfind Hact Hsha Hne. lookup_step Hup. rewrite Hid. simpl.
  rewrite (find_one_up _ _ _ Hup), Hfind, Hact, Hsha, Hne. reflexivity.
Qed.

Lemma submit_flag_right p w o ch hashed n :
  store_up w ->
  ObjectId (SubmitFlagRequest.challenge_id p) = Some o ->
  List.find (matches (FId o)) (coll w "challenge") = Some ch ->
  truthy (get_or ch "is_active" (VBool true)) = true ->
  sha256 (SubmitFlagRequest.flag p) = inr hashed ->
  str_ne hashed (get ch "flag_hash") = false ->
  int_ge0 (get_or ch "points" (VInt 0)) = inr n ->
  submit_flag p w
  = (inr (FlagAccepted "Flag accepted"),
     record_in w "solve" (solve_fields (oid_str (_id ch)) n)).
Proof.
  intros Hup Hid Hfind Hact Hsha Hne Hpts. lookup_step Hup. rewrite Hid. simpl.
  rewrite (find_one_up _ _ _ Hup), Hfind, Hact, Hsha, Hne. simpl.
  unfold SolveSchema. rewrite Hpts.
  rewrite (create_document_up _ _ _ Hup). reflexivity.
Qed.

Lemma str_ne_field ch (k : string) (s : pystr) :
  str_ne s (get ch k) = negb (bool_decide (fields ch !! k = Some (VStr s))).
Proof.
  unfold get, get_or. destruct (fields ch !! k) as [v|]; simpl;
    [destruct v as [|b|n|s'|l]; simpl|]; try done.
  destruct (decide (s = s')) as [->|Hne].
  - by rewrite !bool_decide_true.
  - rewrite !bool_decide_false; [done| |done]. congruence.
Qed.

Lemma record_in_one_solve w o n :
  one_solve_created w (record_in w "solve" (solve_fields (oid_str o) n)) o n.
Proof.
  eexists. split; [apply coll_record_in_eq|]. simpl.
  repeat split; try reflexivity.
  intros c Hc. by apply coll_record_in_ne.
Qed.

End SubmitFlag.

Section SubmitFlagClaims.

Context `{L : Libraries}.
Implicit Types (p : SubmitFlagRequest.t) (w : world) (ch : document).

(** C1.  With the store answering and identifiers unique: a malformed
    challenge_id gives 400; an identifier no challenge has, or an inactive
    challenge, gives 404; an active challenge and a flag whose digest is
    not the stored flag_hash give 400 "Incorrect flag"; in all these cases
    the store is left as it was.  An active challenge and a flag whose
    digest is the stored flag_hash give success and exactly one new Solve,
    with the points of the challenge. *)
Theorem submit_flag_spec p w :
  store_up w -> unique_ids w "challenge" ->
  (ObjectId (SubmitFlagRequest.challenge_id p) = None ->
     submit_flag p w = (inl (HTTPException 400 "Invalid challenge id"), w)) /\
  (forall o, ObjectId (SubmitFlagRequest.challenge_id p) = Some o ->
     ((forall d, d ∈ coll w "challenge" -> _id d <> o) ->
        submit_flag p w = (inl (HTTPException 404 "Challenge not found"), w)) /\
     (forall ch, ch ∈ coll w "challenge" -> _id ch = o ->
        (fields ch !! "is_active" = Some (VBool false) ->
           submit_flag p w = (inl (HTTPException 404 "Challenge not found"), w)) /\
        (fields ch !! "is_active" = Some (VBool true) ->
         forall hashed, sha256 (SubmitFlagRequest.flag p) = inr hashed ->
           (fields ch !! "flag_hash" <> Some (VStr hashed) ->
              submit_flag p w = (inl (HTTPException 400 "Incorrect flag"), w)) /\
           (fields ch !! "flag_hash" = Some (VStr hashed) ->
            forall n, fields ch !! "points" = Some (VInt n) -> 0 <= n ->
              exists w',
                submit_flag p w = (inr (FlagAccepted "Flag accepted"), w') /\
                one_solve_created w w' o n)))).
Proof.
  intros Hup Huniq. split; [by apply submit_flag_malformed|].
  intros o Hid. split.
  { intros Hnone. eapply submit_flag_missing; eauto using find_id_none. }
  intros ch Hin <-.
  pose proof (find_id_unique _ _ Huniq Hin) as Hfind. split.
  { intros Hact. eapply submit_flag_inactive; eauto.
    unfold get_or. by rewrite Hact. }
  intros Hact hashed Hsha.
  assert (truthy (get_or ch "is_active" (VBool true)) = true) as Htruthy
    by (unfold get_or; by rewrite Hact).
  split.
  { intros Hne. eapply submit_flag_wrong; eauto.
    rewrite str_ne_field. by rewrite bool_decide_false. }
  intros Heq n Hpts Hn. eexists. split; [|apply record_in_one_solve].
  eapply submit_flag_right; eauto.
  - rewrite str_ne_field. by rewrite bool_decide_true.
  - unfold get_or. rewrite Hpts. by apply int_ge0_int.
Qed.

End SubmitFlagClaims.

Lemma demo_store_up : store_up Demo.ctf.
Proof. by split. Qed.

Lemma demo_unique_ids (c : string) : unique_ids Demo.ctf c.
Proof.
  unfold unique_ids, coll, Demo.ctf. simpl.
  destruct (decide (c = "user")) as [->|?]; [by apply (bool_decide_unpack _); vm_compute|].
  rewrite lookup_insert_ne by done.
  destruct (decide (c = "challenge")) as [->|?]; [by apply (bool_decide_unpack _); vm_compute|].
  rewrite lookup_insert_ne by done.
  destruct (decide (c = "solve")) as [->|?]; [by apply (bool_decide_unpack _); vm_compute|].
  rewrite lookup_insert_ne by done. rewrite lookup_empty. simpl. constructor.
Qed.

Lemma demo_challenges :
  coll Demo.ctf "challenge" = [Demo.warmup; Demo.retired; Demo.bare].
Proof. reflexivity. Qed.

Ltac demo_challenge :=
  rewrite demo_challenges; repeat first [apply list_elem_of_here | apply list_elem_of_further].

Lemma submit_flag_spec_witness :
  (exists w',
     submit_flag (Demo.submission "650000000000000000000001" "flag{abc}") Demo.ctf
     = (inr (FlagAccepted "Flag accepted"), w') /\
     one_solve_created Demo.ctf w' 0x650000000000000000000001 100) /\
  submit_flag (Demo.submission "650000000000000000000001" "flag{xyz}") Demo.ctf
  = (inl (HTTPException 400 "Incorrect flag"), Demo.ctf) /\
  submit_flag (Demo.submission "650000000000000000000002" "flag{abc}") Demo.ctf
  = (inl (HTTPException 404 "Challenge not found"), Demo.ctf) /\
  submit_flag (Demo.submission "65000000000000000000000f" "flag{abc}") Demo.ctf
  = (inl (HTTPException 404 "Challenge not found"), Demo.ctf) /\
  submit_flag (Demo.submission "warmup" "flag{abc}") Demo.ctf
  = (inl (HTTPException 400 "Invalid challenge id"), Demo.ctf).
Proof.
  pose proof (fun p => submit_flag_spec p Demo.ctf demo_store_up
                         (demo_unique_ids "challenge")) as Hspec.
  split; [|split; [|split; [|split]]].
  - destruct (Hspec (Demo.submission "650000000000000000000001" "flag{abc}"))
      as [_ Hparsed].
    destruct (Hparsed 0x650000000000000000000001 eq_refl) as [_ Hfound].
    destruct (Hfound Demo.warmup) as [_ Hactive];
      [demo_challenge|reflexivity|].
    destruct (Hactive eq_refl Demo.flag_abc) as [_ Hright]; [by vm_compute|].
    apply (Hright eq_refl 100); [reflexivity|lia].
  - destruct (Hspec (Demo.submission "650000000000000000000001" "flag{xyz}"))
      as [_ Hparsed].
    destruct (Hparsed 0x650000000000000000000001 eq_refl) as [_ Hfound].
    destruct (Hfound Demo.warmup) as [_ Hactive];
      [demo_challenge|reflexivity|].
    destruct (Hactive eq_refl (Demo.digest_of (py "flag{xyz}"))) as [Hwrong _];
      [by vm_compute|].
    apply Hwrong. by vm_compute.
  - destruct (Hspec (Demo.submission "650000000000000000000002" "flag{abc}"))
      as [_ Hparsed].
    destruct (Hparsed 0x650000000000000000000002 eq_refl) as [_ Hfound].
    destruct (Hfound Demo.retired) as [Hinactive _];
      [demo_challenge|reflexivity|].
    by apply Hinactive.
  - destruct (Hspec (Demo.submission "65000000000000000000000f" "flag{abc}"))
      as [_ Hparsed].
    destruct (Hparsed 0x65000000000000000000000f eq_refl) as [Hmissing _].
    apply Hmissing. intros d Hd. rewrite demo_challenges in Hd.
    apply list_elem_of_In in Hd. simpl in Hd.
    destruct Hd as [<-|[<-|[<-|[]]]]; by vm_compute.
  - destruct (Hspec (Demo.submission "warmup" "flag{abc}")) as [Hmalformed _].
    by apply Hmalformed.
Defined.

Section SubmitFlagDefaults.

Context `{L : Libraries}.
Implicit Types (p : SubmitFlagRequest.t) (w : world) (ch : document).

(** C10.  A challenge document without the is_active field is treated as
    active: the flag is compared (a wrong one gives 400 "Incorrect flag",
    not 404; the right one is accepted).  When the document has no points
    field, the Solve that is created carries 0 points. *)
Theorem submit_flag_defaults p w o ch hashed :
  store_up w -> unique_ids w "challenge" ->
  ObjectId (SubmitFlagRequest.challenge_id p) = Some o ->
  ch ∈ coll w "challenge" -> _id ch = o ->
  sha256 (SubmitFlagRequest.flag p) = inr hashed ->
  (fields ch !! "is_active" = None ->
     (fields ch !! "flag_hash" <> Some (VStr hashed) ->
        submit_flag p w = (inl (HTTPException 400 "Incorrect flag"), w)) /\
     (fields ch !! "flag_hash" = Some (VStr hashed) ->
      forall n, fields ch !! "points" = Some (VInt n) -> 0 <= n ->
        exists w',
          submit_flag p w = (inr (FlagAccepted "Flag accepted"), w') /\
          one_solve_created w w' o n)) /\
  (fields ch !! "points" = None ->
   fields ch !! "is_active" = None \/ fields ch !! "is_active" = Some (VBool true) ->
   fields ch !! "flag_hash" = Some (VStr hashed) ->
     exists w',
       submit_flag p w = (inr (FlagAccepted "Flag accepted"), w') /\
       one_solve_created w w' o 0).
Proof.
  intros Hup Huniq Hid Hin <- Hsha.
  pose proof (find_id_unique _ _ Huniq Hin) as Hfind. split.
  - intros Hact.
    assert (truthy (get_or ch "is_active" (VBool true)) = true) as Htruthy
      by (unfold get_or; by rewrite Hact).
    split.
    + intros Hne. eapply submit_flag_wrong; eauto.
      rewrite str_ne_field. by rewrite bool_decide_false.
    + intros Heq n Hpts Hn. eexists. split; [|apply record_in_one_solve].
      eapply submit_flag_right; eauto.
      * rewrite str_ne_field. by rewrite bool_decide_true.
      * unfold get_or. rewrite Hpts. by apply int_ge0_int.
  - intros Hpts Hact Heq.
    assert (truthy (get_or ch "is_active" (VBool true)) = true) as Htruthy
      by (unfold get_or; by destruct Hact as [-> | ->]).
    eexists. split; [|apply record_in_one_solve].
    eapply submit_flag_right; eauto.
    + rewrite str_ne_field. by rewrite bool_decide_true.
    + unfold get_or. rewrite Hpts. simpl. by apply int_ge0_int.
Qed.

(** A failure of the store during the lookup of the challenge is caught
    together with a malformed identifier, and answered with 400. *)
Lemma submit_flag_lookup_failure p w o (msg : string) (rest : list (option string)) :
  db_present w = true -> outages w = Some msg :: rest ->
  ObjectId (SubmitFlagRequest.challenge_id p) = Some o ->
  submit_flag p w
  = (inl (HTTPException 400 "Invalid challenge id"),
     World true (collections w) rest (issued w)).
Proof.
  intros Hdb Hout Hid.
  unfold submit_flag, try_except, mbind, M_bind, lift, raise, db_getitem.
  rewrite Hdb, Hid. simpl.
  unfold find_one, mbind, M_bind, driver_call. rewrite Hout, Hdb. reflexivity.
Qed.

Lemma submit_flag_no_handle p w :
  db_present w = false ->
  submit_flag p w = (inl (HTTPException 400 "Invalid challenge id"), w).
Proof.
  intros Hdb.
  unfold submit_flag, try_except, mbind, M_bind, lift, raise, db_getitem.
  by rewrite Hdb.
Qed.

(** The other handlers let the same failure through. *)
Lemma login_lookup_failure (payload : LoginRequest.t) w (hashed : pystr)
    (msg : string) (rest : list (option string)) :
  db_present w = true -> outages w = Some msg :: rest ->
  sha256 (LoginRequest.password payload) = inr hashed ->
  login payload w = (inl (PyMongoError msg), World true (collections w) rest (issued w)).
Proof.
  intros Hdb Hout Hsha.
  unfold login, mbind, M_bind, lift, db_getitem. rewrite Hsha, Hdb.
  unfold find_one, mbind, M_bind, driver_call. rewrite Hout, Hdb. reflexivity.
Qed.

Lemma register_lookup_failure (payload : RegisterRequest.t) w
    (msg : string) (rest : list (option string)) :
  db_present w = true -> outages w = Some msg :: rest ->
  register payload w = (inl (PyMongoError msg), World true (collections w) rest (issued w)).
Proof.
  intros Hdb Hout.
  unfold register, mbind, M_bind, lift, db_getitem. rewrite Hdb.
  unfold find_one, mbind, M_bind, driver_call. rewrite Hout, Hdb. reflexivity.
Qed.

Lemma leaderboard_failure w (msg : string) (rest : list (option string)) :
  db_present w = true -> outages w = Some msg :: rest ->
  leaderboard w = (inl (PyMongoError msg), World true (collections w) rest (issued w)).
Proof.
  intros Hdb Hout.
  unfold leaderboard, mbind, M_bind, db_getitem. rewrite Hdb.
  unfold aggregate, mbind, M_bind, driver_call. rewrite Hout, Hdb. reflexivity.
Qed.

End SubmitFlagDefaults.

Lemma submit_flag_defaults_witness :
  submit_flag (Demo.submission "650000000000000000000003" "flag{xyz}") Demo.ctf
  = (inl (HTTPException 400 "Incorrect flag"), Demo.ctf) /\
  exists w',
    submit_flag (Demo.submission "650000000000000000000003" "flag{abc}") Demo.ctf
    = (inr (FlagAccepted "Flag accepted"), w') /\
    one_solve_created Demo.ctf w' 0x650000000000000000000003 0.
Proof.
  split.
  - destruct (submit_flag_defaults
                (Demo.submission "650000000000000000000003" "flag{xyz}") Demo.ctf
                0x650000000000000000000003 Demo.bare (Demo.digest_of (py "flag{xyz}"))
                demo_store_up (demo_unique_ids "challenge") eq_refl)
      as [Hactive _]; [demo_challenge|reflexivity|by vm_compute|].
    destruct (Hactive eq_refl) as [Hwrong _]. apply Hwrong. by vm_compute.
  - destruct (submit_flag_defaults
                (Demo.submission "650000000000000000000003" "flag{abc}") Demo.ctf
                0x650000000000000000000003 Demo.bare Demo.flag_abc
                demo_store_up (demo_unique_ids "challenge") eq_refl)
      as [_ Hpoints]; [demo_challenge|reflexivity|by vm_compute|].
    apply Hpoints; [reflexivity|by left|reflexivity].
Defined.

(** C7 fails on the code for the lookup of [submit_flag]: with a well-formed
    identifier and a store whose round trip fails, the answer is 400
    "Invalid challenge id", where [login] on the same store lets the failure
    through (status 500). *)
Lemma submit_flag_store_failure_is_400 :
  submit_flag (Demo.submission "650000000000000000000001" "flag{abc}") Demo.ctf_failing
  = (inl (HTTPException 400 "Invalid challenge id"), Demo.ctf) /\
  http_status
    (submit_flag (Demo.submission "650000000000000000000001" "flag{abc}")
       Demo.ctf_failing).1 = 400 /\
  http_status
    (login (LoginRequest.Make (py "alice") (py "pw123")) Demo.ctf_failing).1 = 500.
Proof.
  pose proof (submit_flag_lookup_failure
                (Demo.submission "650000000000000000000001" "flag{abc}")
                Demo.ctf_failing 0x650000000000000000000001
                "connection refused" [] eq_refl eq_refl eq_refl) as Hsubmit.
  pose proof (login_lookup_failure (LoginRequest.Make (py "alice") (py "pw123"))
                Demo.ctf_failing Demo.pw123
                "connection refused" [] eq_refl eq_refl ltac:(by vm_compute)) as Hlogin.
  split; [exact Hsubmit|]. by rewrite Hsubmit, Hlogin.
Qed.

(** ** Registration, login and contribution *)

Section Accounts.

Context `{L : Libraries}.
Implicit Types (w : world) (d : document).

Lemma find_some_elem (f : document -> bool) (docs : list document) :
  (exists d, d ∈ docs /\ f d = true) -> exists d', List.find f docs = Some d'.
Proof.
  intros (d & Hin & Hf). induction docs as [|x docs IH]; [by apply elem_of_nil in Hin|].
  simpl. destruct (f x) eqn:Hx; [eauto|].
  apply elem_of_cons in Hin as [->|Hin]; [congruence|by apply IH].
Qed.

Lemma find_none_elem (f : document -> bool) (docs : list document) :
  (forall d, d ∈ docs -> f d = false) -> List.find f docs = None.
Proof.
  induction docs as [|x docs IH]; intros Hall; [done|]. simpl.
  rewrite Hall by left. apply IH. intros d Hd. apply Hall. by right.
Qed.

Lemma find_elem (f : document -> bool) (docs : list document) d :
  List.find f docs = Some d -> d ∈ docs /\ f d = true.
Proof.
  intros Hfind. apply find_some in Hfind as [Hin Hf].
  split; [by apply list_elem_of_In|done].
Qed.

Lemma record_in_one_created w (c : string) (flds : gmap string value) :
  one_created w (record_in w c flds) c (Doc (generated_id (issued w)) flds).
Proof.
  split; [apply coll_record_in_eq|]. intros c' Hc'. by apply coll_record_in_ne.
Qed.

(** C2.  With the store answering: when some stored user has the
    username of the request, or some stored user has its email, [register]
    raises 400 and leaves the store as it is; when neither is the case, the
    password is hashed, exactly one User document is added (with the
    username, the validated email and the digest) and its identifier is
    returned. *)
Theorem register_spec (payload : RegisterRequest.t) w :
  store_up w ->
  (taken w "username" (RegisterRequest.username payload) \/
   taken w "email" (RegisterRequest.email payload) ->
     register payload w
     = (inl (HTTPException 400 "Username or email already exists"), w)) /\
  (~ taken w "username" (RegisterRequest.username payload) ->
   ~ taken w "email" (RegisterRequest.email payload) ->
   forall hashed email',
     sha256 (RegisterRequest.password payload) = inr hashed ->
     EmailStr (RegisterRequest.email payload) = Some email' ->
     exists w' u,
       register payload w = (inr (Registered (oid_str (_id u))), w') /\
       one_created w w' "user" u /\
       fields u = user_fields (RegisterRequest.username payload) email' hashed).
Proof.
  intros Hup. split.
  - intros Htaken.
    destruct (find_some_elem
                (matches (FOr (FEq "username" (VStr (RegisterRequest.username payload)))
                              (FEq "email" (VStr (RegisterRequest.email payload)))))
                (coll w "user")) as [d' Hfind].
    { destruct Htaken as [(d & Hin & Hd)|(d & Hin & Hd)]; exists d; split; try done;
        simpl; rewrite Hd.
      - by rewrite bool_decide_true.
      - rewrite (bool_decide_true (Some _ = Some _)) by done. apply orb_true_r. }
    unfold register, mbind, M_bind, raise.
    rewrite (db_getitem_up _ _ Hup), (find_one_up _ _ _ Hup), Hfind. reflexivity.
  - intros Hname Hmail hashed email' Hsha Hvalid.
    exists (record_in w "user"
              (user_fields (RegisterRequest.username payload) email' hashed)).
    eexists (Doc _ _). split; [|split; [apply record_in_one_created|reflexivity]].
    unfold register, mbind, M_bind, raise, lift.
    rewrite (db_getitem_up _ _ Hup), (find_one_up _ _ _ Hup).
    rewrite find_none_elem.
    + simpl. rewrite Hsha. unfold UserSchema. rewrite Hvalid.
      rewrite (create_document_up _ _ _ Hup). reflexivity.
    + intros d Hd. simpl. apply orb_false_iff. split; apply bool_decide_false.
      * intros Heq. apply Hname. by exists d.
      * intros Heq. apply Hmail. by exists d.
Qed.

(** C3.  With the store answering and a password that has a digest:
    [login] succeeds exactly when some stored user has the submitted
    username and, as password_hash, the digest of the submitted password,
    and it then returns that username; in every other case (no such
    username, or a different digest) it raises the one and the same 401
    "Invalid credentials", and the store is left as it is. *)
Theorem login_spec (payload : LoginRequest.t) w (hashed : pystr) :
  store_up w ->
  sha256 (LoginRequest.password payload) = inr hashed ->
  ((exists r, (login payload w).1 = inr r)
   <-> credentials_match w (LoginRequest.username payload) hashed) /\
  (credentials_match w (LoginRequest.username payload) hashed ->
     login payload w = (inr (LoggedIn (VStr (LoginRequest.username payload))), w)) /\
  (~ credentials_match w (LoginRequest.username payload) hashed ->
     login payload w = (inl (HTTPException 401 "Invalid credentials"), w)).
Proof.
  intros Hup Hsha.
  set (q := FAnd (FEq "username" (VStr (LoginRequest.username payload)))
                 (FEq "password_hash" (VStr hashed))).
  assert (Hrun : login payload w
                 = match List.find (matches q) (coll w "user") with
                   | None => (inl (HTTPException 401 "Invalid credentials"), w)
                   | Some user => (inr (LoggedIn (get user "username")), w)
                   end).
  { unfold login, mbind, M_bind, lift. rewrite Hsha.
    rewrite (db_getitem_up _ _ Hup), (find_one_up _ _ _ Hup).
    fold q. by destruct (List.find (matches q) (coll w "user")). }
  assert (Hyes : credentials_match w (LoginRequest.username payload) hashed ->
            login payload w
            = (inr (LoggedIn (VStr (LoginRequest.username payload))), w)).
  { intros (d & Hin & Hname & Hhash).
    destruct (find_some_elem (matches q) (coll w "user")) as [d' Hfind].
    { exists d. split; [done|]. simpl. rewrite Hname, Hhash.
      by rewrite !bool_decide_true. }
    rewrite Hrun, Hfind. apply find_elem in Hfind as [_ Hd'].
    simpl in Hd'. apply andb_true_iff in Hd' as [Hd'%bool_decide_eq_true _].
    unfold get, get_or. by rewrite Hd'. }
  assert (Hno : ~ credentials_match w (LoginRequest.username payload) hashed ->
            login payload w = (inl (HTTPException 401 "Invalid credentials"), w)).
  { intros Hnone. rewrite Hrun, find_none_elem; [done|].
    intros d Hd. simpl. apply andb_false_iff.
    destruct (decide (fields d !! "username"
                      = Some (VStr (LoginRequest.username payload)))) as [Hname|];
      [|left; by apply bool_decide_false].
    right. apply bool_decide_false. intros Hhash. apply Hnone. by exists d. }
  split; [|by split]. split.
  - intros [r Hr]. rewrite Hrun in Hr.
    destruct (List.find (matches q) (coll w "user")) as [d|] eqn:Hfind;
      [|discriminate Hr].
    apply find_elem in Hfind as [Hin Hd]. simpl in Hd.
    apply andb_true_iff in Hd as [Hname%bool_decide_eq_true Hhash%bool_decide_eq_true].
    by exists d.
  - intros Hmatch. rewrite (Hyes Hmatch). eauto.
Qed.

End Accounts.

Lemma demo_users : coll Demo.ctf "user" = [Demo.alice].
Proof. reflexivity. Qed.

Lemma demo_only_alice (k : string) (s : pystr) :
  fields Demo.alice !! k <> Some (VStr s) -> ~ taken Demo.ctf k s.
Proof.
  intros Hne (d & Hin & Hd). rewrite demo_users in Hin.
  apply list_elem_of_singleton in Hin as ->. done.
Qed.

Lemma register_spec_witness :
  register (RegisterRequest.Make (py "alice") (py "other@example.com") (py "x")) Demo.ctf
  = (inl (HTTPException 400 "Username or email already exists"), Demo.ctf) /\
  register (RegisterRequest.Make (py "alice2") (py "alice@example.com") (py "x")) Demo.ctf
  = (inl (HTTPException 400 "Username or email already exists"), Demo.ctf) /\
  exists w' u,
    register (RegisterRequest.Make (py "bob") (py "bob@example.com") (py "hunter2")) Demo.ctf
    = (inr (Registered (oid_str (_id u))), w') /\
    one_created Demo.ctf w' "user" u /\
    fields u = user_fields (py "bob") (py "bob@example.com")
                 (Demo.digest_of (py "hunter2")).
Proof.
  assert (Halice : Demo.alice ∈ coll Demo.ctf "user")
    by (rewrite demo_users; apply list_elem_of_here).
  split; [|split].
  - apply (register_spec
             (RegisterRequest.Make (py "alice") (py "other@example.com") (py "x"))
             Demo.ctf demo_store_up).
    left. by exists Demo.alice.
  - apply (register_spec
             (RegisterRequest.Make (py "alice2") (py "alice@example.com") (py "x"))
             Demo.ctf demo_store_up).
    right. by exists Demo.alice.
  - apply (register_spec
             (RegisterRequest.Make (py "bob") (py "bob@example.com") (py "hunter2"))
             Demo.ctf demo_store_up).
    + apply demo_only_alice. by vm_compute.
    + apply demo_only_alice. by vm_compute.
    + by vm_compute.
    + by vm_compute.
Defined.

Lemma login_spec_witness :
  login (LoginRequest.Make (py "alice") (py "pw123")) Demo.ctf
  = (inr (LoggedIn (VStr (py "alice"))), Demo.ctf) /\
  login (LoginRequest.Make (py "alice") (py "pw124")) Demo.ctf
  = (inl (HTTPException 401 "Invalid credentials"), Demo.ctf) /\
  login (LoginRequest.Make (py "mallory") (py "pw123")) Demo.ctf
  = (inl (HTTPException 401 "Invalid credentials"), Demo.ctf).
Proof.
  assert (Halice : Demo.alice ∈ coll Demo.ctf "user")
    by (rewrite demo_users; apply list_elem_of_here).
  assert (Honly : forall u h : pystr,
             (fields Demo.alice !! "username" = Some (VStr u) ->
              fields Demo.alice !! "password_hash" = Some (VStr h) -> False) ->
             ~ credentials_match Demo.ctf u h).
  { intros u h Hne (d & Hin & Hname & Hhash). rewrite demo_users in Hin.
    apply list_elem_of_singleton in Hin as ->. eauto. }
  split; [|split].
  - apply (login_spec (LoginRequest.Make (py "alice") (py "pw123")) Demo.ctf
             Demo.pw123 demo_store_up); [by vm_compute|].
    by exists Demo.alice.
  - apply (login_spec (LoginRequest.Make (py "alice") (py "pw124")) Demo.ctf
             (Demo.digest_of (py "pw124")) demo_store_up); [by vm_compute|].
    apply Honly. intros _ Hhash. by vm_compute in Hhash.
  - apply (login_spec (LoginRequest.Make (py "mallory") (py "pw123")) Demo.ctf
             Demo.pw123 demo_store_up); [by vm_compute|].
    apply Honly. intros Hname _. by vm_compute in Hname.
Defined.

Section Challenges.

Context `{L : Libraries}.
Implicit Types (w : world) (d : document).

(** C8.  With the store answering and a flag that has a digest: when the
    submitted points are at least 0, exactly one Challenge document is
    added; it is the dump of the schema record built from the request with
    the digest of the flag as flag_hash, "anonymous" as author and
    is_active true, so that the flag enters it through its digest only
    (it has no field "flag"); when the points are negative the schema
    refuses them, the request fails and nothing is stored. *)
Theorem contribute_challenge_spec (payload : SubmitChallengeRequest.t) w (hashed : pystr) :
  store_up w ->
  sha256 (SubmitChallengeRequest.flag payload) = inr hashed ->
  (0 <= SubmitChallengeRequest.points payload ->
     exists w' ch,
       contribute_challenge payload w = (inr (Contributed (oid_str (_id ch))), w') /\
       one_created w w' "challenge" ch /\
       fields ch
       = model_dump (Challenge.Make (SubmitChallengeRequest.title payload)
                       (SubmitChallengeRequest.description payload) hashed
                       (SubmitChallengeRequest.points payload) (py "anonymous")
                       (SubmitChallengeRequest.tags payload) true) /\
       fields ch !! "flag_hash" = Some (VStr hashed) /\
       fields ch !! "is_active" = Some (VBool true) /\
       fields ch !! "author" = Some (VStr (py "anonymous")) /\
       fields ch !! "points" = Some (VInt (SubmitChallengeRequest.points payload)) /\
       fields ch !! "flag" = None) /\
  (SubmitChallengeRequest.points payload < 0 ->
     contribute_challenge payload w = (inl ValidationError, w)).
Proof.
  intros Hup Hsha. split.
  - intros Hpts. eexists. eexists (Doc _ _).
    split; [|split; [apply record_in_one_created|]].
    + unfold contribute_challenge, mbind, M_bind, lift. rewrite Hsha.
      unfold ChallengeSchema. rewrite (int_ge0_int _ Hpts).
      rewrite (create_document_up _ _ _ Hup). reflexivity.
    + simpl. repeat split; reflexivity.
  - intros Hpts.
    unfold contribute_challenge, mbind, M_bind, lift. rewrite Hsha.
    unfold ChallengeSchema. by rewrite (int_ge0_negative _ Hpts).
Qed.

Lemma public_item_lookup d (k : string) :
  k <> "flag_hash" -> k <> "_id" -> public_item d !! k = fields d !! k.
Proof.
  intros H1 H2. unfold public_item.
  rewrite lookup_delete_ne by done. by rewrite lookup_insert_ne.
Qed.

Lemma public_item_flag_hash d : public_item d !! "flag_hash" = None.
Proof. unfold public_item. apply lookup_delete_eq. Qed.

Lemma list_challenges_up w :
  store_up w ->
  list_challenges w
  = (inr (ChallengeItems
            (public_item <$>
               take 100 (List.filter (matches (FEq "is_active" (VBool true)))
                           (coll w "challenge")))), w).
Proof.
  intros Hup. unfold list_challenges, mbind, M_bind.
  by rewrite (get_documents_up _ _ _ _ Hup).
Qed.

(** C4.  With the store answering, [list_challenges] returns the first
    100 (at most) of the challenges whose is_active field is true, each
    with its flag_hash removed (and its identifier as text); the store is
    left as it is. *)
Theorem list_challenges_spec w :
  store_up w ->
  exists items,
    list_challenges w = (inr (ChallengeItems items), w) /\
    (length items <= 100)%nat /\
    (forall it, it ∈ items ->
       it !! "is_active" = Some (VBool true) /\
       it !! "flag_hash" = None /\
       exists d, d ∈ coll w "challenge" /\
                 fields d !! "is_active" = Some (VBool true) /\
                 it = public_item d).
Proof.
  intros Hup. eexists. split; [by apply list_challenges_up|]. split.
  - rewrite length_fmap, length_take. lia.
  - intros it Hit. apply list_elem_of_fmap in Hit as (d & -> & Hd).
    apply subseteq_take in Hd. apply list_elem_of_In, filter_In in Hd as [Hin Hd].
    simpl in Hd. apply bool_decide_eq_true in Hd.
    split; [by rewrite public_item_lookup|]. split; [apply public_item_flag_hash|].
    exists d. split; [by apply list_elem_of_In|done].
Qed.

End Challenges.

Lemma contribute_challenge_spec_witness :
  (exists w' ch,
     contribute_challenge
       (SubmitChallengeRequest.Make (py "Warmup") (py "") (py "flag{abc}") 100 None)
       Demo.ctf
     = (inr (Contributed (oid_str (_id ch))), w') /\
     one_created Demo.ctf w' "challenge" ch /\
     fields ch !! "flag_hash" = Some (VStr Demo.flag_abc) /\
     fields ch !! "is_active" = Some (VBool true) /\
     fields ch !! "author" = Some (VStr (py "anonymous")) /\
     fields ch !! "flag" = None) /\
  contribute_challenge
    (SubmitChallengeRequest.Make (py "Warmup") (py "") (py "flag{abc}") (-1) None)
    Demo.ctf
  = (inl ValidationError, Demo.ctf).
Proof.
  split.
  - destruct (contribute_challenge_spec
                (SubmitChallengeRequest.Make (py "Warmup") (py "") (py "flag{abc}") 100 None)
                Demo.ctf Demo.flag_abc demo_store_up ltac:(by vm_compute))
      as [Hok _].
    destruct (Hok ltac:(simpl; lia)) as (w' & ch & Hrun & Hone & _ & Hhash & Hact & Hauth & _ & Hflag).
    exists w', ch. repeat split; try done; apply Hone.
  - apply (contribute_challenge_spec
             (SubmitChallengeRequest.Make (py "Warmup") (py "") (py "flag{abc}") (-1) None)
             Demo.ctf Demo.flag_abc demo_store_up); [by vm_compute|simpl; lia].
Defined.

Lemma list_challenges_spec_witness :
  exists items,
    list_challenges Demo.ctf = (inr (ChallengeItems items), Demo.ctf) /\
    (length items <= 100)%nat /\
    (forall it, it ∈ items ->
       it !! "is_active" = Some (VBool true) /\
       it !! "flag_hash" = None /\
       exists d, d ∈ coll Demo.ctf "challenge" /\
                 fields d !! "is_active" = Some (VBool true) /\
                 it = public_item d).
Proof. apply (list_challenges_spec Demo.ctf demo_store_up). Defined.

(** On the demonstration store only the active challenge is listed, without
    its flag hash. *)
Example list_challenges_demo :
  list_challenges Demo.ctf
  = (inr (ChallengeItems
            [<["_id" := VStr (py "650000000000000000000001")]>
               (delete "flag_hash" (fields Demo.warmup))]), Demo.ctf).
Proof.
  rewrite (list_challenges_up Demo.ctf demo_store_up). reflexivity.
Qed.

(** ** Documents are only ever created *)

Create HintDb appends.

Section AppendOnly.

Context `{L : Libraries}.
Implicit Types (w : world).

Lemma extends_refl w : extends w w.
Proof. by intros c. Qed.

Lemma extends_trans w1 w2 w3 : extends w1 w2 -> extends w2 w3 -> extends w1 w3.
Proof. intros H12 H23 c. etrans; [apply H12|apply H23]. Qed.

Lemma appends_only_ret {A} (x : A) : appends_only (mret x).
Proof. intros w. apply extends_refl. Qed.

Lemma appends_only_raise {A} (e : exn) : appends_only (@raise _ A e).
Proof. intros w. apply extends_refl. Qed.

Lemma appends_only_lift {A} (r : result A) : appends_only (lift r).
Proof. intros w. apply extends_refl. Qed.

Lemma appends_only_gets {A} (f : world -> A) : appends_only (gets f).
Proof. intros w. apply extends_refl. Qed.

Lemma appends_only_bind {A B} (m : M A) (k : A -> M B) :
  appends_only m -> (forall x, appends_only (k x)) -> appends_only (m ≫= k).
Proof.
  intros Hm Hk w. unfold mbind, M_bind. specialize (Hm w).
  destruct (m w) as [[e|x] w']; simpl in *; [done|].
  eapply extends_trans; [exact Hm|apply Hk].
Qed.

Lemma appends_only_try {A} (m : M A) (handler : exn -> M A) :
  appends_only m -> (forall e, appends_only (handler e)) ->
  appends_only (try_except m handler).
Proof.
  intros Hm Hh w. unfold try_except. specialize (Hm w).
  destruct (m w) as [[e|x] w']; simpl in *; [|done].
  eapply extends_trans; [exact Hm|apply Hh].
Qed.

Lemma appends_only_db_getitem (name : string) : appends_only (db_getitem name).
Proof. intros w. unfold db_getitem. destruct (db_present w); apply extends_refl. Qed.

Lemma appends_only_driver_call : appends_only driver_call.
Proof.
  intros w c. unfold driver_call. by destruct (outages w) as [|[msg|] rest].
Qed.

Lemma appends_only_insert_one (c : string) (flds : gmap string value) :
  appends_only (insert_one c flds).
Proof.
  unfold insert_one. apply appends_only_bind; [apply appends_only_driver_call|].
  intros _ w c'. unfold update. simpl. unfold coll at 2. simpl.
  destruct (decide (c = c')) as [->|Hne].
  - rewrite lookup_insert_eq. simpl. by apply prefix_app_r.
  - by rewrite lookup_insert_ne.
Qed.

Hint Resolve appends_only_ret appends_only_raise appends_only_lift
  appends_only_gets appends_only_db_getitem appends_only_driver_call
  appends_only_insert_one : appends.

Ltac appends :=
  repeat first
    [ progress auto with appends
    | apply appends_only_bind; [|intros ?]
    | apply appends_only_try; [|intros ?]
    | match goal with
      | |- appends_only (match ?x with _ => _ end) => destruct x
      | |- appends_only (if ?x then _ else _) => destruct x
      end ].

Lemma appends_only_create_document `{BaseModel A} (c : string) (data : A) :
  appends_only (create_document c data).
Proof. unfold create_document. appends. Qed.

Lemma appends_only_find_one (c : string) (q : query) : appends_only (find_one c q).
Proof. unfold find_one. appends. Qed.

Hint Resolve appends_only_create_document appends_only_find_one : appends.

Lemma appends_only_app (r : request) : appends_only (app r).
Proof.
  destruct r as [| |p|p|p| |p|]; simpl.
  - unfold read_root. appends.
  - unfold test_database, list_collection_names. appends.
  - unfold register. appends.
  - unfold login. appends.
  - unfold contribute_challenge. appends.
  - unfold list_challenges, get_documents, find_limit. appends.
  - unfold submit_flag. appends.
  - unfold leaderboard, aggregate. appends.
Qed.

Lemma serve_extends (rs : list request) w : extends w (serve rs w).
Proof.
  revert w. induction rs as [|r rs IH]; intros w; simpl; [apply extends_refl|].
  eapply extends_trans; [apply appends_only_app|apply IH].
Qed.

(** C9.  Whatever requests are served, in whatever world (the store may
    fail, the requests may be refused), every collection afterwards starts
    with the documents it held before, unchanged and in place: the
    handlers only ever add documents. *)
Theorem app_only_creates (rs : list request) w (c : string) :
  coll w c `prefix_of` coll (serve rs w) c /\
  forall (i : nat) (d : document),
    coll w c !! i = Some d -> coll (serve rs w) c !! i = Some d.
Proof.
  pose proof (serve_extends rs w c) as [added Hadded].
  split; [by exists added|].
  intros i d Hd. rewrite Hadded. by apply lookup_app_l_Some.
Qed.

End AppendOnly.

(** ** The leaderboard *)

Section Groups.

Implicit Types (rows : list row) (k u : value) (n : Z).

Lemma score_in_cons rows (r : row) u :
  score_in (r :: rows) u
  = (if decide (row_id r = u) then row_score r else 0) + score_in rows u.
Proof.
  unfold score_in. rewrite filter_cons. by destruct (decide (row_id r = u)).
Qed.

Lemma score_in_absent rows u : u ∉ row_id <$> rows -> score_in rows u = 0.
Proof.
  induction rows as [|r rows IH]; intros Hu; [done|].
  rewrite fmap_cons in Hu. apply not_elem_of_cons in Hu as [Hne Hu].
  rewrite score_in_cons, IH by done. by rewrite decide_False.
Qed.

Lemma score_in_row rows (r : row) :
  NoDup (row_id <$> rows) -> r ∈ rows -> score_in rows (row_id r) = row_score r.
Proof.
  induction rows as [|x rows IH]; intros Hnd Hin; [by apply elem_of_nil in Hin|].
  rewrite fmap_cons in Hnd. apply NoDup_cons in Hnd as [Hx Hnd].
  rewrite score_in_cons. apply elem_of_cons in Hin as [->|Hin].
  - rewrite decide_True by done. rewrite score_in_absent by done. lia.
  - rewrite decide_False, IH by (done || (intros Heq; apply Hx; rewrite Heq;
                                          by apply list_elem_of_fmap_2)).
    lia.
Qed.

Lemma add_row_keys k n rows u :
  u ∈ row_id <$> add_row k n rows <-> u = k \/ u ∈ row_id <$> rows.
Proof.
  induction rows as [|r rows IH]; simpl.
  - rewrite list_elem_of_singleton. rewrite elem_of_nil. tauto.
  - destruct (decide (row_id r = k)) as [<-|Hne]; simpl.
    + rewrite !elem_of_cons. tauto.
    + rewrite !elem_of_cons, IH. tauto.
Qed.

Lemma add_row_NoDup k n rows :
  NoDup (row_id <$> rows) -> NoDup (row_id <$> add_row k n rows).
Proof.
  induction rows as [|r rows IH]; simpl; intros Hnd.
  - apply NoDup_singleton.
  - destruct (decide (row_id r = k)) as [<-|Hne]; simpl; [done|].
    apply NoDup_cons in Hnd as [Hr Hnd]. apply NoDup_cons. split; [|by apply IH].
    rewrite add_row_keys. intros [?|?]; [congruence|done].
Qed.

Lemma add_row_score k n rows u :
  score_in (add_row k n rows) u = score_in rows u + (if decide (k = u) then n else 0).
Proof.
  induction rows as [|r rows IH]; simpl.
  - rewrite score_in_cons. simpl. unfold score_in. simpl.
    destruct (decide (k = u)); lia.
  - destruct (decide (row_id r = k)) as [<-|Hne].
    + rewrite !score_in_cons. simpl. destruct (decide (row_id r = u)); lia.
    + rewrite !score_in_cons, IH. lia.
Qed.

End Groups.

Section Leaderboard.

Context `{L : Libraries}.
Implicit Types (docs : list document) (rows : list row) (u : value) (w : world).

Lemma total_points_cons (d : document) docs u :
  total_points u (d :: docs)
  = (if decide (get d "username" = u) then numeric (get d "points") else 0)
    + total_points u docs.
Proof.
  unfold total_points. rewrite filter_cons.
  by destruct (decide (get d "username" = u)).
Qed.

Lemma fold_group_score docs rows u :
  score_in (fold_left (fun rows d =>
              add_row (get d "username") (numeric (get d "points")) rows) docs rows) u
  = score_in rows u + total_points u docs.
Proof.
  revert rows. induction docs as [|d docs IH]; intros rows; simpl.
  - unfold total_points. simpl. lia.
  - rewrite IH, add_row_score, total_points_cons. lia.
Qed.

Lemma fold_group_keys docs rows u :
  u ∈ row_id <$> fold_left (fun rows d =>
          add_row (get d "username") (numeric (get d "points")) rows) docs rows
  <-> u ∈ row_id <$> rows \/ exists d, d ∈ docs /\ get d "username" = u.
Proof.
  revert rows. induction docs as [|d docs IH]; intros rows; simpl.
  - split; [by left|]. intros [?|(d & Hd & _)]; [done|by apply elem_of_nil in Hd].
  - rewrite IH, add_row_keys. split.
    + intros [[->|?]|(d' & Hd' & Hu)]; [right|by left|right].
      * exists d. split; [left|done].
      * exists d'. split; [by right|done].
    + intros [?|(d' & Hd' & Hu)]; [by left; right|].
      apply elem_of_cons in Hd' as [->|Hd']; [by left; left|].
      right. by exists d'.
Qed.

Lemma fold_group_NoDup docs rows :
  NoDup (row_id <$> rows) ->
  NoDup (row_id <$> fold_left (fun rows d =>
           add_row (get d "username") (numeric (get d "points")) rows) docs rows).
Proof.
  revert rows. induction docs as [|d docs IH]; intros rows Hnd; simpl; [done|].
  by apply IH, add_row_NoDup.
Qed.

Lemma group_sum_NoDup docs : NoDup (row_id <$> group_sum "username" "points" docs).
Proof. apply fold_group_NoDup. constructor. Qed.

Lemma group_sum_row docs (r : row) :
  r ∈ group_sum "username" "points" docs ->
  row_score r = total_points (row_id r) docs /\
  exists d, d ∈ docs /\ get d "username" = row_id r.
Proof.
  intros Hr. split.
  - rewrite <- (score_in_row _ r (group_sum_NoDup docs) Hr).
    unfold group_sum. rewrite fold_group_score. unfold score_in. simpl. lia.
  - apply (list_elem_of_fmap_2 row_id) in Hr. unfold group_sum in Hr.
    apply fold_group_keys in Hr as [Hr|Hr]; [by apply elem_of_nil in Hr|done].
Qed.

Lemma group_sum_complete docs (d : document) :
  d ∈ docs ->
  exists r, r ∈ group_sum "username" "points" docs /\ row_id r = get d "username".
Proof.
  intros Hd.
  assert (get d "username" ∈ row_id <$> group_sum "username" "points" docs) as Hk.
  { unfold group_sum. apply fold_group_keys. right. by exists d. }
  apply list_elem_of_fmap in Hk as (r & Hr & Hin). by exists r.
Qed.

Lemma leaderboard_up w :
  store_up w ->
  leaderboard w
  = (inr (LeaderboardItems
            ((fun r => Standing (row_id r) (row_score r)) <$>
               take 50 (merge_sort descending
                          (group_sum "username" "points" (coll w "solve"))))), w).
Proof.
  intros Hup. unfold leaderboard, mbind, M_bind.
  rewrite (db_getitem_up _ _ Hup), (aggregate_up _ _ _ _ _ Hup). reflexivity.
Qed.

(** C5.  With the store answering, the leaderboard has at most 50 items,
    in descending order of score, no two for the same username; the score
    of an item is the sum of the points of the solves of its username, of
    which there is at least one; and a username that has a solve is either
    listed or, with 50 items listed, has a total no greater than any score
    listed. *)
Theorem leaderboard_spec w :
  store_up w ->
  exists items,
    leaderboard w = (inr (LeaderboardItems items), w) /\
    (length items <= 50)%nat /\
    StronglySorted (fun x y => standing_score y <= standing_score x) items /\
    NoDup (standing_username <$> items) /\
    (forall it, it ∈ items ->
       standing_score it = total_points (standing_username it) (coll w "solve") /\
       exists d, d ∈ coll w "solve" /\ get d "username" = standing_username it) /\
    (forall d, d ∈ coll w "solve" ->
       (exists it, it ∈ items /\ standing_username it = get d "username") \/
       (length items = 50%nat /\
        forall it, it ∈ items ->
          total_points (get d "username") (coll w "solve") <= standing_score it)).
Proof.
  intros Hup. eexists. split; [by apply leaderboard_up|].
  set (groups := group_sum "username" "points" (coll w "solve")).
  set (sorted := merge_sort descending groups).
  assert (Hperm : sorted ≡ₚ groups) by apply merge_sort_Permutation.
  assert (Hsorted : StronglySorted descending (take 50 sorted ++ drop 50 sorted)).
  { rewrite take_drop. apply StronglySorted_merge_sort; apply _. }
  assert (Hgroup : forall r, r ∈ take 50 sorted -> r ∈ groups).
  { intros r Hr. rewrite <- Hperm. by apply (subseteq_take 50). }
  split; [rewrite length_fmap, length_take; lia|]. split.
  { apply StronglySorted_fmap with (R1 := descending); [done|].
    by apply StronglySorted_app_1_l in Hsorted. }
  split.
  { rewrite <- list_fmap_compose. simpl.
    change (NoDup (row_id <$> take 50 sorted)).
    rewrite fmap_take. eapply sublist_NoDup; [|apply sublist_take].
    rewrite Hperm. apply group_sum_NoDup. }
  split.
  { intros it Hit. apply list_elem_of_fmap in Hit as (r & -> & Hr). simpl.
    by apply group_sum_row, Hgroup. }
  intros d Hd. destruct (group_sum_complete _ d Hd) as (r & Hr & Hkey).
  fold groups in Hr. rewrite <- Hperm, <- (take_drop 50 sorted) in Hr.
  apply elem_of_app in Hr as [Hr|Hr].
  - left. exists (Standing (row_id r) (row_score r)). split; [|done].
    by apply (list_elem_of_fmap_2 (fun r => Standing (row_id r) (row_score r))).
  - right. split.
    + rewrite length_fmap. apply length_take_le.
      destruct (decide (50 <= length sorted)%nat) as [|Hshort]; [done|].
      rewrite drop_ge in Hr by lia. by apply elem_of_nil in Hr.
    + intros it Hit. apply list_elem_of_fmap in Hit as (r' & -> & Hr'). simpl.
      pose proof (StronglySorted_app_1_elem_of _ _ _ _ _ Hsorted Hr' Hr) as Hle.
      unfold descending in Hle. rewrite <- Hkey.
      assert (r ∈ groups) as Hrg.
      { rewrite <- Hperm, <- (take_drop 50 sorted). apply elem_of_app. by right. }
      apply group_sum_row in Hrg as [<- _]. done.
Qed.

End Leaderboard.

Lemma leaderboard_spec_witness :
  exists items,
    leaderboard Demo.ctf = (inr (LeaderboardItems items), Demo.ctf) /\
    (length items <= 50)%nat /\
    StronglySorted (fun x y => standing_score y <= standing_score x) items /\
    NoDup (standing_username <$> items) /\
    (forall it, it ∈ items ->
       standing_score it = total_points (standing_username it) (coll Demo.ctf "solve") /\
       exists d, d ∈ coll Demo.ctf "solve" /\ get d "username" = standing_username it) /\
    (forall d, d ∈ coll Demo.ctf "solve" ->
       (exists it, it ∈ items /\ standing_username it = get d "username") \/
       (length items = 50%nat /\
        forall it, it ∈ items ->
          total_points (get d "username") (coll Demo.ctf "solve") <= standing_score it)).
Proof. apply (leaderboard_spec Demo.ctf demo_store_up). Defined.

(** On the demonstration store: bob's two solves add up, and come first. *)
Example leaderboard_demo :
  leaderboard Demo.ctf
  = (inr (LeaderboardItems [Standing (VStr (py "bob")) 200;
                            Standing (VStr (py "carol")) 150]), Demo.ctf).
Proof. rewrite (leaderboard_up Demo.ctf demo_store_up). reflexivity. Qed.

(** ** The end-to-end scenario of the specification *)

(** Register alice, contribute the challenge "Warmup" with flag flag{abc}
    and 100 points, submit that flag for the identifier returned, and read
    the leaderboard: one entry, "anonymous" with 100 points. *)
Example end_to_end_scenario :
  let alice := RegisterRequest.Make (py "alice") (py "alice@example.com") (py "pw123") in
  let warmup :=
    SubmitChallengeRequest.Make (py "Warmup") (py "") (py "flag{abc}") 100 None in
  let flag := Demo.submission "650000000000000000000001" "flag{abc}" in
  let w1 := (register alice Demo.empty_world).2 in
  let w2 := (contribute_challenge warmup w1).2 in
  let w3 := (submit_flag flag w2).2 in
  (register alice Demo.empty_world).1 = inr (Registered (py "650000000000000000000000")) /\
  (contribute_challenge warmup w1).1 = inr (Contributed (py "650000000000000000000001")) /\
  (submit_flag flag w2).1 = inr (FlagAccepted "Flag accepted") /\
  (leaderboard w3).1 = inr (LeaderboardItems [Standing (VStr (py "anonymous")) 100]) /\
  (register alice w3).1 = inl (HTTPException 400 "Username or email already exists").
Proof. vm_compute. repeat split. Qed.

(** * Further properties of the handlers *)

(** ** Every stored document conforms to its schema *)

Create HintDb sound.

Section Soundness.

Context `{L : Libraries}.
Implicit Types (w : world).

Lemma sha256_digest_text (s h : pystr) : sha256 s = inr h -> digest_text h.
Proof.
  unfold sha256. destruct (Utf8.encode s) as [e|bs]; [discriminate|].
  intros Hh. assert (h = Hex.of_bytes (SHA256.digest bs)) as -> by congruence.
  unfold digest_text. split.
  - by rewrite hex_of_bytes_length, digest_length.
  - apply hex_of_bytes_digits.
Qed.

Lemma grows_refl w : grows w w.
Proof.
  split; [done|]. intros c. exists []. by rewrite app_nil_r.
Qed.

Lemma grows_trans w1 w2 w3 : grows w1 w2 -> grows w2 w3 -> grows w1 w3.
Proof.
  intros [Hup12 H12] [Hup23 H23]. split; [auto|]. intros c.
  destruct (H12 c) as (a1 & E1 & F1). destruct (H23 c) as (a2 & E2 & F2).
  exists (a1 ++ a2). split; [by rewrite E2, E1, app_assoc|by apply Forall_app].
Qed.

Lemma sound_weaken {A} (Q R : A -> Prop) (m : M A) :
  (forall x, Q x -> R x) -> sound Q m -> sound R m.
Proof. intros HQR Hm w. destruct (Hm w) as [Hg Hq]. split; [done|]. eauto. Qed.

Lemma sound_ret {A} (Q : A -> Prop) (x : A) : Q x -> sound Q (mret x).
Proof. intros HQ w. split; [apply grows_refl|]. by intros ? [= <-]. Qed.

Lemma sound_raise {A} (Q : A -> Prop) (e : exn) : sound Q (raise e).
Proof. intros w. split; [apply grows_refl|]. intros x Hx. discriminate Hx. Qed.

Lemma sound_lift {A} (r : result A) : sound (fun x => r = inr x) (lift r).
Proof. intros w. split; [apply grows_refl|]. intros x Hx. exact Hx. Qed.

Lemma sound_gets {A} (f : world -> A) : sound (fun _ => True) (gets f).
Proof. intros w. split; [apply grows_refl|done]. Qed.

Lemma sound_bind {A B} (Q : A -> Prop) (R : B -> Prop) (m : M A) (k : A -> M B) :
  sound Q m -> (forall x, Q x -> sound R (k x)) -> sound R (m ≫= k).
Proof.
  intros Hm Hk w. unfold mbind, M_bind. destruct (Hm w) as [Hg Hq].
  destruct (m w) as [[e|x] w']; simpl in *.
  - split; [done|]. intros y Hy. discriminate Hy.
  - destruct (Hk x (Hq x eq_refl) w') as [Hg' Hr].
    split; [by eapply grows_trans|done].
Qed.

Lemma sound_try {A} (Q : A -> Prop) (m : M A) (handler : exn -> M A) :
  sound Q m -> (forall e, sound Q (handler e)) -> sound Q (try_except m handler).
Proof.
  intros Hm Hh w. unfold try_except. destruct (Hm w) as [Hg Hq].
  destruct (m w) as [[e|x] w']; simpl in *; [|done].
  destruct (Hh e w') as [Hg' Hr]. split; [by eapply grows_trans|done].
Qed.

Lemma sound_db_getitem (name : string) : sound (fun c => c = name) (db_getitem name).
Proof.
  intros w. unfold db_getitem.
  destruct (db_present w); (split; [apply grows_refl|]); intros x [= <-]; done.
Qed.

Lemma sound_driver_call : sound (fun _ => True) driver_call.
Proof.
  intros w. unfold driver_call. destruct (outages w) as [|o rest] eqn:Hout.
  - split; [apply grows_refl|done].
  - assert (grows w (World (db_present w) (collections w) rest (issued w))).
    { split; [intros [_ Hup]; congruence|].
      intros c. exists []. by rewrite app_nil_r. }
    by destruct o.
Qed.

Lemma sound_insert_one (c : string) (flds : gmap string value) :
  (forall o, conforms c (Doc o flds)) -> sound (fun _ => True) (insert_one c flds).
Proof.
  intros Hconf. unfold insert_one.
  eapply sound_bind; [apply sound_driver_call|]. intros _ _ w.
  split; [|done]. unfold update. simpl. split; [by intros [? ?]; split|].
  intros c'. unfold coll at 1. simpl. destruct (decide (c = c')) as [<-|Hne].
  - rewrite lookup_insert_eq. simpl. eexists. split; [done|].
    by apply Forall_singleton.
  - rewrite lookup_insert_ne by done. exists []. by rewrite app_nil_r.
Qed.

Lemma sound_create_document `{BaseModel A} (c : string) (data : A) :
  (forall o, conforms c (Doc o (model_dump data))) ->
  sound (fun _ => True) (create_document c data).
Proof.
  intros Hconf. unfold create_document.
  eapply sound_bind; [apply sound_db_getitem|]. intros name ->.
  eapply sound_bind; [by apply sound_insert_one|]. intros; by apply sound_ret.
Qed.

Lemma sound_find_one (c : string) (q : query) : sound (fun _ => True) (find_one c q).
Proof.
  unfold find_one. eapply sound_bind; [apply sound_driver_call|].
  intros; apply sound_gets.
Qed.

End Soundness.

Section SoundHandlers.

Context `{L : Libraries}.
Implicit Types (w : world).

Lemma int_ge0_nonneg (v : value) (n : Z) : int_ge0 v = inr n -> 0 <= n.
Proof.
  unfold int_ge0. destruct (validate_int v) as [m|]; [|discriminate].
  destruct (Z.leb_spec 0 m); [|discriminate]. by intros [= <-].
Qed.

Lemma conforms_user (o : oid) (u e h : pystr) :
  digest_text h -> conforms "user" (Doc o (user_fields u e h)).
Proof. intros Hh. unfold conforms. simpl. by exists u, e, h. Qed.

Lemma conforms_challenge (o : oid) (t ds h : pystr) (n : Z) (tags : option (list pystr)) :
  digest_text h -> 0 <= n ->
  conforms "challenge"
    (Doc o (model_dump (Challenge.Make t ds h n (py "anonymous") tags true))).
Proof. intros Hh Hn. unfold conforms. simpl. by exists t, ds, h, n, tags. Qed.

Lemma conforms_solve (o : oid) (cid : pystr) (n : Z) :
  0 <= n -> conforms "solve" (Doc o (solve_fields cid n)).
Proof. intros Hn. unfold conforms. simpl. by exists cid, n. Qed.

Lemma sound_register (p : RegisterRequest.t) : sound (fun _ => True) (register p).
Proof.
  unfold register.
  eapply sound_bind; [apply sound_db_getitem|]. intros c ->.
  eapply sound_bind; [apply sound_find_one|]. intros existing _.
  destruct (found existing); [apply sound_raise|].
  eapply sound_bind; [apply sound_lift|]. intros hashed Hsha.
  eapply sound_bind; [apply sound_lift|]. intros user Huser.
  eapply sound_bind; [|intros; by apply sound_ret].
  apply sound_create_document. intros o.
  unfold UserSchema in Huser.
  destruct (EmailStr (RegisterRequest.email p)) as [e|]; [|discriminate].
  injection Huser as <-. apply conforms_user. exact (sha256_digest_text _ _ Hsha).
Qed.

Lemma sound_login (p : LoginRequest.t) : sound (fun _ => True) (login p).
Proof.
  unfold login.
  eapply sound_bind; [apply sound_lift|]. intros hashed _.
  eapply sound_bind; [apply sound_db_getitem|]. intros c ->.
  eapply sound_bind; [apply sound_find_one|]. intros [user|] _.
  - by apply sound_ret.
  - apply sound_raise.
Qed.

Lemma sound_contribute_challenge (p : SubmitChallengeRequest.t) :
  sound (fun _ => True) (contribute_challenge p).
Proof.
  unfold contribute_challenge.
  eapply sound_bind; [apply sound_lift|]. intros hashed Hsha.
  eapply sound_bind; [apply sound_lift|]. intros ch Hch.
  eapply sound_bind; [|intros; by apply sound_ret].
  apply sound_create_document. intros o.
  unfold ChallengeSchema in Hch.
  destruct (int_ge0 (VInt (SubmitChallengeRequest.points p))) as [e|n] eqn:Hpts;
    [discriminate|].
  injection Hch as <-. apply conforms_challenge.
  - exact (sha256_digest_text _ _ Hsha).
  - exact (int_ge0_nonneg _ _ Hpts).
Qed.

Lemma sound_list_challenges : sound (fun _ => True) list_challenges.
Proof.
  unfold list_challenges, get_documents, find_limit.
  eapply sound_bind; [|intros; by apply sound_ret].
  eapply sound_bind; [apply sound_db_getitem|]. intros c ->.
  eapply sound_bind; [apply sound_driver_call|]. intros; apply sound_gets.
Qed.

Lemma sound_submit_flag (p : SubmitFlagRequest.t) :
  sound (fun _ => True) (submit_flag p).
Proof.
  unfold submit_flag.
  eapply sound_bind with (Q := fun _ => True).
  { apply sound_try; [|intros; apply sound_raise].
    eapply sound_bind; [apply sound_db_getitem|]. intros c ->.
    eapply sound_bind; [apply sound_lift|]. intros o _. apply sound_find_one. }
  intros [ch|] _; [|apply sound_raise].
  destruct (negb _); [apply sound_raise|].
  eapply sound_bind; [apply sound_lift|]. intros hashed _.
  destruct (str_ne _ _); [apply sound_raise|].
  eapply sound_bind; [apply sound_lift|]. intros solve Hsolve.
  eapply sound_bind; [|intros; by apply sound_ret].
  apply sound_create_document. intros o.
  unfold SolveSchema in Hsolve.
  destruct (int_ge0 (get_or ch "points" (VInt 0))) as [e|n] eqn:Hpts; [discriminate|].
  injection Hsolve as <-. apply conforms_solve. exact (int_ge0_nonneg _ _ Hpts).
Qed.

Lemma sound_leaderboard : sound (fun _ => True) leaderboard.
Proof.
  unfold leaderboard, aggregate.
  eapply sound_bind; [apply sound_db_getitem|]. intros c ->.
  eapply sound_bind; [|intros; by apply sound_ret].
  eapply sound_bind; [apply sound_driver_call|]. intros; apply sound_gets.
Qed.

Lemma sound_test_database : sound (fun _ => True) test_database.
Proof.
  unfold test_database, list_collection_names.
  eapply sound_bind with (Q := fun _ => True); [|intros; by apply sound_ret].
  apply sound_try; [|intros; by apply sound_ret].
  eapply sound_bind; [apply sound_gets|]. intros [|] _; [|by apply sound_ret].
  apply sound_try; [|intros; by apply sound_ret].
  eapply sound_bind with (Q := fun _ => True); [|intros; by apply sound_ret].
  eapply sound_bind; [apply sound_driver_call|]. intros; apply sound_gets.
Qed.

Lemma sound_app (r : request) : sound (fun _ => True) (app r).
Proof.
  destruct r; simpl.
  - by apply sound_ret.
  - apply sound_test_database.
  - apply sound_register.
  - apply sound_login.
  - apply sound_contribute_challenge.
  - apply sound_list_challenges.
  - apply sound_submit_flag.
  - apply sound_leaderboard.
Qed.

Lemma serve_grows (rs : list request) w : grows w (serve rs w).
Proof.
  revert w. induction rs as [|r rs IH]; intros w; simpl; [apply grows_refl|].
  eapply grows_trans; [apply sound_app|apply IH].
Qed.

Lemma grows_schema_ok w w' : grows w w' -> schema_ok w -> schema_ok w'.
Proof.
  intros [_ Hg] Hok c d Hd. destruct (Hg c) as (added & Heq & Hadded).
  rewrite Heq in Hd. apply elem_of_app in Hd as [Hd|Hd]; [by apply Hok|].
  by eapply Forall_forall in Hadded.
Qed.

Lemma schema_ok_empty w : collections w = ∅ -> schema_ok w.
Proof.
  intros Hempty c d Hd. unfold coll in Hd. rewrite Hempty, lookup_empty in Hd.
  by apply elem_of_nil in Hd.
Qed.

(** X1.  Whatever requests are served, and whether or not the store fails in
    between, the documents of a store that conforms to the schemas still
    conform afterwards: the handlers only store dumps of validated schema
    records (digests as password_hash and flag_hash, points that are not
    negative, the placeholder author and username, is_active true). *)
Theorem served_documents_conform (rs : list request) w :
  schema_ok w -> schema_ok (serve rs w).
Proof. apply grows_schema_ok, serve_grows. Qed.

End SoundHandlers.

(** ** A request that fails, or that only reads, stores nothing *)

Section Atomicity.

Context `{L : Libraries}.
Implicit Types (w : world).

Lemma readonly_ret {A} (x : A) : readonly (mret x).
Proof. by intros w. Qed.

Lemma readonly_raise {A} (e : exn) : readonly (@raise _ A e).
Proof. by intros w. Qed.

Lemma readonly_lift {A} (r : result A) : readonly (lift r).
Proof. by intros w. Qed.

Lemma readonly_gets {A} (f : world -> A) : readonly (gets f).
Proof. by intros w. Qed.

Lemma readonly_db_getitem (name : string) : readonly (db_getitem name).
Proof. intros w. unfold db_getitem. by destruct (db_present w). Qed.

Lemma readonly_driver_call : readonly driver_call.
Proof. intros w. unfold driver_call. by destruct (outages w) as [|[msg|] rest]. Qed.

Lemma readonly_bind {A B} (m : M A) (k : A -> M B) :
  readonly m -> (forall x, readonly (k x)) -> readonly (m ≫= k).
Proof.
  intros Hm Hk w. unfold mbind, M_bind. specialize (Hm w).
  destruct (m w) as [[e|x] w']; simpl in *; [done|]. by rewrite Hk.
Qed.

Lemma readonly_try {A} (m : M A) (handler : exn -> M A) :
  readonly m -> (forall e, readonly (handler e)) -> readonly (try_except m handler).
Proof.
  intros Hm Hh w. unfold try_except. specialize (Hm w).
  destruct (m w) as [[e|x] w']; simpl in *; [|done]. by rewrite Hh.
Qed.

Lemma readonly_find_one (c : string) (q : query) : readonly (find_one c q).
Proof.
  unfold find_one. apply readonly_bind; [apply readonly_driver_call|].
  intros; apply readonly_gets.
Qed.

Lemma atomic_readonly {A} (m : M A) : readonly m -> atomic m.
Proof. intros Hm w e _. apply Hm. Qed.

Lemma atomic_bind {A B} (m : M A) (k : A -> M B) :
  readonly m -> (forall x, atomic (k x)) -> atomic (m ≫= k).
Proof.
  intros Hm Hk w e. unfold mbind, M_bind. specialize (Hm w).
  destruct (m w) as [[e'|x] w']; simpl in *; [done|].
  intros He. by rewrite (Hk x w' e He).
Qed.

(** The one write of a handler is its last step: when it fails, nothing
    has been written. *)
Lemma atomic_create_document `{BaseModel A} {B} (c : string) (data : A) (g : pystr -> B) :
  atomic (create_document c data ≫= fun x => mret (g x)).
Proof.
  intros w e. unfold create_document, insert_one, update, mbind, M_bind, mret, M_ret,
    db_getitem, driver_call.
  destruct (db_present w); [|done].
  destruct (outages w) as [|[msg|] rest]; simpl; try done.
Qed.

Create HintDb readonly.

Hint Resolve readonly_ret readonly_raise readonly_lift readonly_gets
  readonly_db_getitem readonly_driver_call readonly_find_one : readonly.

Ltac readonly :=
  repeat first
    [ progress auto with readonly
    | apply readonly_bind; [|intros ?]
    | apply readonly_try; [|intros ?]
    | match goal with
      | |- readonly (match ?x with _ => _ end) => destruct x
      | |- readonly (if ?x then _ else _) => destruct x
      end ].

Lemma readonly_login (p : LoginRequest.t) : readonly (login p).
Proof. unfold login. readonly. Qed.

Lemma readonly_list_challenges : readonly list_challenges.
Proof. unfold list_challenges, get_documents, find_limit. readonly. Qed.

Lemma readonly_leaderboard : readonly leaderboard.
Proof. unfold leaderboard, aggregate. readonly. Qed.

Lemma readonly_test_database : readonly test_database.
Proof. unfold test_database, list_collection_names. readonly. Qed.

Lemma atomic_register (p : RegisterRequest.t) : atomic (register p).
Proof.
  unfold register.
  apply atomic_bind; [readonly|]. intros c.
  apply atomic_bind; [readonly|]. intros existing.
  destruct (found existing); [apply atomic_readonly; readonly|].
  apply atomic_bind; [readonly|]. intros hashed.
  apply atomic_bind; [readonly|]. intros user.
  apply atomic_create_document.
Qed.

Lemma atomic_contribute_challenge (p : SubmitChallengeRequest.t) :
  atomic (contribute_challenge p).
Proof.
  unfold contribute_challenge.
  apply atomic_bind; [readonly|]. intros hashed.
  apply atomic_bind; [readonly|]. intros ch.
  apply atomic_create_document.
Qed.

Lemma atomic_submit_flag (p : SubmitFlagRequest.t) : atomic (submit_flag p).
Proof.
  unfold submit_flag.
  apply atomic_bind; [readonly|]. intros [ch|]; [|apply atomic_readonly; readonly].
  destruct (negb _); [apply atomic_readonly; readonly|].
  apply atomic_bind; [readonly|]. intros hashed.
  destruct (str_ne _ _); [apply atomic_readonly; readonly|].
  apply atomic_bind; [readonly|]. intros solve.
  apply atomic_create_document.
Qed.

(** X2.  A request that is answered with an error, whatever the error and
    whatever the state of the store, has stored nothing. *)
Theorem failed_request_stores_nothing (r : request) w (e : exn) :
  (app r w).1 = inl e -> collections (app r w).2 = collections w.
Proof.
  revert w e. change (atomic (app r)). destruct r; simpl.
  - apply atomic_readonly. unfold read_root. readonly.
  - apply atomic_readonly, readonly_test_database.
  - apply atomic_register.
  - apply atomic_readonly, readonly_login.
  - apply atomic_contribute_challenge.
  - apply atomic_readonly, readonly_list_challenges.
  - apply atomic_submit_flag.
  - apply atomic_readonly, readonly_leaderboard.
Qed.

(** X3.  The root, the diagnostic, login, the list of challenges and the
    leaderboard never write: the collections after the request are those
    before it, whatever the outcome. *)
Theorem read_request_stores_nothing (r : request) w :
  is_read r = true -> collections (app r w).2 = collections w.
Proof.
  destruct r; simpl; try discriminate; intros _.
  - done.
  - apply readonly_test_database.
  - apply readonly_login.
  - apply readonly_list_challenges.
  - apply readonly_leaderboard.
Qed.

End Atomicity.

(** ** The diagnostic endpoint *)

Section Diagnostic.

Context `{L : Libraries}.
Implicit Types (w : world).

Lemma test_database_no_handle w :
  db_present w = false ->
  test_database w
  = (inr (TestReport (Diagnostic "✅ Running" "⚠️  Available but not initialized"
                        None None "Not Connected" [])), w).
Proof.
  intros Hdb. unfold test_database, try_except, mbind, M_bind, gets. simpl.
  by rewrite Hdb.
Qed.

Lemma test_database_failure w (msg : string) (rest : list (option string)) :
  db_present w = true -> outages w = Some msg :: rest ->
  test_database w
  = (inr (TestReport (Diagnostic "✅ Running"
                        ("⚠️  Connected but Error: " +:+ String.substring 0 50 msg)
                        url_report (Some db_name) "Connected" [])),
     with_outages w rest).
Proof.
  intros Hdb Hout.
  unfold test_database, list_collection_names, try_except, mbind, M_bind, gets,
    driver_call. simpl.
  by rewrite Hdb, Hout.
Qed.

Lemma test_database_working w :
  store_up w ->
  test_database w
  = (inr (TestReport (Diagnostic "✅ Running" "✅ Connected & Working"
                        url_report (Some db_name) "Connected"
                        (take 10 (map_to_list (collections w)).*1))), w).
Proof.
  intros [Hdb Hout].
  unfold test_database, list_collection_names, try_except, mbind, M_bind, gets,
    driver_call. simpl.
  by rewrite Hdb, Hout.
Qed.

(** X4.  [test_database] never raises: in every world (no database handle, a
    store that fails) it returns a report; the report names at most ten
    collections, and the collections are left as they are. *)
Theorem test_database_never_raises w :
  exists report w',
    test_database w = (inr (TestReport report), w') /\
    collections w' = collections w /\
    backend report = "✅ Running"%string /\
    (length (collection_names report) <= 10)%nat.
Proof.
  destruct (db_present w) eqn:Hdb.
  - destruct (outages w) as [|[msg|] rest] eqn:Hout.
    + do 2 eexists. split; [by apply test_database_working|].
      repeat split. simpl. rewrite length_take. lia.
    + do 2 eexists. split; [by eapply test_database_failure|].
      repeat split. simpl. lia.
    + do 2 eexists. split.
      * unfold test_database, list_collection_names, try_except, mbind, M_bind, gets,
          driver_call. simpl. rewrite Hdb, Hout. reflexivity.
      * repeat split. simpl. rewrite length_take. lia.
  - do 2 eexists. split; [by apply test_database_no_handle|].
    repeat split. simpl. lia.
Qed.

(** X5.  What [test_database] reports: without a database handle, "Available
    but not initialized" and "Not Connected"; when listing the collections
    fails, "Connected" with the first fifty characters of the error and no
    collection names; when the store answers, "Connected & Working" and
    the first ten collection names. *)
Theorem test_database_reports w :
  (db_present w = false ->
     test_database w
     = (inr (TestReport (Diagnostic "✅ Running" "⚠️  Available but not initialized"
                           None None "Not Connected" [])), w)) /\
  (db_present w = true ->
   forall (msg : string) (rest : list (option string)),
     outages w = Some msg :: rest ->
     test_database w
     = (inr (TestReport (Diagnostic "✅ Running"
                           ("⚠️  Connected but Error: " +:+ String.substring 0 50 msg)
                           url_report (Some db_name) "Connected" [])),
        with_outages w rest)) /\
  (store_up w ->
     test_database w
     = (inr (TestReport (Diagnostic "✅ Running" "✅ Connected & Working"
                           url_report (Some db_name) "Connected"
                           (take 10 (map_to_list (collections w)).*1))), w)).
Proof.
  split; [apply test_database_no_handle|]. split.
  - intros Hdb msg rest Hout. by apply test_database_failure.
  - apply test_database_working.
Qed.

End Diagnostic.

(** ** Failures of the store and of the database handle *)

Section Failures.

Context `{L : Libraries}.
Implicit Types (w : world).

(** X6.  [register], [login] and [leaderboard] have no handler of their own: a
    failure of the store during their lookup leaves them as it is, with its
    message, and nothing is stored. *)
Theorem store_failure_propagates w (msg : string) (rest : list (option string)) :
  db_present w = true -> outages w = Some msg :: rest ->
  (forall p : RegisterRequest.t,
     register p w = (inl (PyMongoError msg), with_outages w rest)) /\
  (forall (p : LoginRequest.t) (hashed : pystr),
     sha256 (LoginRequest.password p) = inr hashed ->
     login p w = (inl (PyMongoError msg), with_outages w rest)) /\
  leaderboard w = (inl (PyMongoError msg), with_outages w rest).
Proof.
  intros Hdb Hout. unfold with_outages. rewrite Hdb. split; [|split].
  - intros p. by apply register_lookup_failure.
  - intros p hashed Hsha. by eapply login_lookup_failure.
  - by apply leaderboard_failure.
Qed.

(** X7.  When the database handle is [None], subscripting it raises TypeError:
    [register], [login] and [leaderboard] let it through, while
    [submit_flag], whose lookup is inside its try block, answers 400
    "Invalid challenge id" whatever the identifier. *)
Theorem no_database_handle w :
  db_present w = false ->
  (forall p : SubmitFlagRequest.t,
     submit_flag p w = (inl (HTTPException 400 "Invalid challenge id"), w)) /\
  (forall p : RegisterRequest.t, register p w = (inl TypeError, w)) /\
  (forall (p : LoginRequest.t) (hashed : pystr),
     sha256 (LoginRequest.password p) = inr hashed -> login p w = (inl TypeError, w)) /\
  leaderboard w = (inl TypeError, w).
Proof.
  intros Hdb. split; [|split; [|split]].
  - intros p. by apply submit_flag_no_handle.
  - intros p. unfold register, mbind, M_bind, db_getitem. by rewrite Hdb.
  - intros p hashed Hsha. unfold login, mbind, M_bind, lift, db_getitem.
    by rewrite Hsha, Hdb.
  - unfold leaderboard, mbind, M_bind, db_getitem. by rewrite Hdb.
Qed.

(** X8.  A secret that UTF-8 cannot encode makes the handler raise
    UnicodeEncodeError: [login] and [contribute_challenge] hash first, and
    raise in every world without touching the store. *)
Theorem surrogate_secret_raises w :
  (forall p : LoginRequest.t,
     Exists (fun c => surrogate c = true) (LoginRequest.password p) ->
     login p w = (inl UnicodeEncodeError, w)) /\
  (forall p : SubmitChallengeRequest.t,
     Exists (fun c => surrogate c = true) (SubmitChallengeRequest.flag p) ->
     contribute_challenge p w = (inl UnicodeEncodeError, w)).
Proof.
  split; intros p Hs.
  - unfold login, mbind, M_bind, lift, sha256. by rewrite encode_surrogate.
  - unfold contribute_challenge, mbind, M_bind, lift, sha256.
    by rewrite encode_surrogate.
Qed.

End Failures.

(** ** More on flag submission *)

Section SubmitFlagEdges.

Context `{L : Libraries}.
Implicit Types (p : SubmitFlagRequest.t) (w : world) (ch : document).

Lemma find_id_elem (docs : list document) (o : oid) ch :
  List.find (matches (FId o)) docs = Some ch -> ch ∈ docs /\ _id ch = o.
Proof.
  intros Hfind. apply find_some in Hfind as [Hin Hid]. simpl in Hid.
  apply bool_decide_eq_true in Hid. split; [by apply list_elem_of_In|done].
Qed.

Lemma find_id_none_elem (docs : list document) (o : oid) :
  List.find (matches (FId o)) docs = None -> forall d, d ∈ docs -> _id d <> o.
Proof.
  intros Hfind d Hd Hid. apply list_elem_of_In in Hd.
  pose proof (find_none _ _ Hfind d Hd) as Hm. simpl in Hm.
  by apply bool_decide_eq_false in Hm.
Qed.

Lemma sha256_error (s : pystr) (e : exn) :
  sha256 s = inl e -> e = UnicodeEncodeError.
Proof.
  unfold sha256. destruct (Utf8.encode s) as [e'|bs] eqn:He; [|discriminate].
  intros [= <-]. by eapply encode_error.
Qed.

Lemma int_ge0_error (v : value) (e : exn) : int_ge0 v = inl e -> e = ValidationError.
Proof. unfold int_ge0. repeat case_match; congruence. Qed.

(** What [submit_flag] does with a challenge it has found and not refused. *)
Lemma submit_flag_active_outcome p w o ch :
  store_up w ->
  ObjectId (SubmitFlagRequest.challenge_id p) = Some o ->
  List.find (matches (FId o)) (coll w "challenge") = Some ch ->
  truthy (get_or ch "is_active" (VBool true)) = true ->
  (submit_flag p w).1 <> inl (HTTPException 404 "Challenge not found").
Proof.
  intros Hup Hid Hfind Hact.
  unfold submit_flag, try_except, mbind, M_bind, lift, raise.
  rewrite (db_getitem_up _ _ Hup), Hid. simpl.
  rewrite (find_one_up _ _ _ Hup), Hfind, Hact. simpl.
  destruct (sha256 (SubmitFlagRequest.flag p)) as [e|hashed] eqn:Hsha.
  { apply sha256_error in Hsha as ->. done. }
  destruct (str_ne hashed (get ch "flag_hash")); [done|].
  unfold SolveSchema.
  destruct (int_ge0 (get_or ch "points" (VInt 0))) as [e|n] eqn:Hpts.
  - apply int_ge0_error in Hpts as ->. done.
  - by rewrite (create_document_up _ _ _ Hup).
Qed.

(** X10.  With the store answering and unique identifiers, a well-formed
    identifier is answered with 404 exactly when no challenge has it or the
    challenge that has it holds a falsy is_active (false, but also null, 0,
    an empty string or an empty list). *)
Theorem submit_flag_not_found_iff p w o :
  store_up w -> unique_ids w "challenge" ->
  ObjectId (SubmitFlagRequest.challenge_id p) = Some o ->
  (submit_flag p w).1 = inl (HTTPException 404 "Challenge not found")
  <-> (forall d, d ∈ coll w "challenge" -> _id d <> o) \/
      (exists ch, ch ∈ coll w "challenge" /\ _id ch = o /\
                  truthy (get_or ch "is_active" (VBool true)) = false).
Proof.
  intros Hup Huniq Hid.
  destruct (List.find (matches (FId o)) (coll w "challenge")) as [ch|] eqn:Hfind.
  - apply find_id_elem in Hfind as Hch. destruct Hch as [Hin Hcho].
    destruct (truthy (get_or ch "is_active" (VBool true))) eqn:Hact.
    + split.
      * intros H404. by destruct (submit_flag_active_outcome p w o ch).
      * intros [Hnone|(ch' & Hin' & Hid' & Hact')]; [by destruct (Hnone ch Hin)|].
        pose proof (find_id_unique _ _ Huniq Hin') as Hfind'.
        rewrite Hid', Hfind in Hfind'. injection Hfind' as ->. congruence.
    + split; [|intros _; by rewrite (submit_flag_inactive p w o ch)].
      intros _. right. by exists ch.
  - split; [|intros _; by rewrite (submit_flag_missing p w o)].
    intros _. left. by apply find_id_none_elem.
Qed.

(** X11.  A challenge whose stored points the Solve schema refuses (a negative
    integer, or a value that is no integer) cannot be solved: the right flag
    is answered with pydantic's ValidationError, status 500, and no Solve is
    stored. *)
Theorem submit_flag_invalid_points p w o ch (hashed : pystr) (v : value) :
  store_up w -> unique_ids w "challenge" ->
  ObjectId (SubmitFlagRequest.challenge_id p) = Some o ->
  ch ∈ coll w "challenge" -> _id ch = o ->
  truthy (get_or ch "is_active" (VBool true)) = true ->
  sha256 (SubmitFlagRequest.flag p) = inr hashed ->
  fields ch !! "flag_hash" = Some (VStr hashed) ->
  fields ch !! "points" = Some v ->
  (exists n, v = VInt n /\ n < 0) \/ validate_int v = None ->
  submit_flag p w = (inl ValidationError, w) /\
  http_status (submit_flag p w).1 = 500.
Proof.
  intros Hup Huniq Hid Hin <- Hact Hsha Hhash Hpts Hbad.
  pose proof (find_id_unique _ _ Huniq Hin) as Hfind.
  assert (int_ge0 v = inl ValidationError) as Hv.
  { destruct Hbad as [(n & -> & Hn)|Hnone]; [by apply int_ge0_negative|].
    unfold int_ge0. by rewrite Hnone. }
  assert (submit_flag p w = (inl ValidationError, w)) as Hrun.
  { unfold submit_flag, try_except, mbind, M_bind, lift, raise.
    rewrite (db_getitem_up _ _ Hup), Hid. simpl.
    rewrite (find_one_up _ _ _ Hup), Hfind, Hact, Hsha. simpl.
    rewrite str_ne_field, (bool_decide_true _ Hhash). simpl.
    unfold SolveSchema, get_or. rewrite Hpts. simpl. by rewrite Hv. }
  by rewrite Hrun.
Qed.

(** X12.  Nothing keeps a flag from being submitted again: the same right
    submission, made twice, is accepted twice and leaves two Solve records,
    each with the points of the challenge. *)
Theorem submit_flag_twice p w o ch (hashed : pystr) (n : Z) :
  store_up w -> unique_ids w "challenge" ->
  ObjectId (SubmitFlagRequest.challenge_id p) = Some o ->
  ch ∈ coll w "challenge" -> _id ch = o ->
  truthy (get_or ch "is_active" (VBool true)) = true ->
  sha256 (SubmitFlagRequest.flag p) = inr hashed ->
  fields ch !! "flag_hash" = Some (VStr hashed) ->
  fields ch !! "points" = Some (VInt n) -> 0 <= n ->
  let w1 := (submit_flag p w).2 in
  let w2 := (submit_flag p w1).2 in
  (submit_flag p w).1 = inr (FlagAccepted "Flag accepted") /\
  (submit_flag p w1).1 = inr (FlagAccepted "Flag accepted") /\
  exists s1 s2,
    coll w2 "solve" = coll w "solve" ++ [s1; s2] /\
    fields s1 = solve_fields (oid_str o) n /\
    fields s2 = solve_fields (oid_str o) n.
Proof.
  intros Hup Huniq Hid Hin <- Hact Hsha Hhash Hpts Hn.
  pose proof (find_id_unique _ _ Huniq Hin) as Hfind.
  assert (Hne : str_ne hashed (get ch "flag_hash") = false)
    by (rewrite str_ne_field; by rewrite bool_decide_true).
  assert (Hval : int_ge0 (get_or ch "points" (VInt 0)) = inr n)
    by (unfold get_or; rewrite Hpts; by apply int_ge0_int).
  pose proof (submit_flag_right p w _ ch hashed n Hup Hid Hfind Hact Hsha Hne Hval)
    as Hfirst.
  set (w1 := record_in w "solve" (solve_fields (oid_str (_id ch)) n)) in *.
  assert (Hup1 : store_up w1) by by apply store_up_record_in.
  assert (Hfind1 : List.find (matches (FId (_id ch))) (coll w1 "challenge") = Some ch).
  { unfold w1. by rewrite coll_record_in_ne. }
  pose proof (submit_flag_right p w1 _ ch hashed n Hup1 Hid Hfind1 Hact Hsha Hne Hval)
    as Hsecond.
  simpl. rewrite Hfirst. simpl. fold w1. rewrite Hsecond. simpl.
  split; [done|]. split; [done|].
  eexists (Doc _ _), (Doc _ _). split; [|done].
  rewrite coll_record_in_eq. unfold w1 at 1. rewrite coll_record_in_eq.
  by rewrite <- app_assoc.
Qed.

End SubmitFlagEdges.

(** ** How the handlers compose *)

Section Composition.

Context `{L : Libraries}.
Implicit Types (w : world) (d : document).

Lemma find_app_fresh (f : document -> bool) (docs : list document) d :
  (forall x, x ∈ docs -> f x = false) -> f d = true ->
  List.find f (docs ++ [d]) = Some d.
Proof.
  intros Hold Hd. induction docs as [|x docs IH]; simpl; [by rewrite Hd|].
  rewrite Hold by left. apply IH. intros y Hy. apply Hold. by right.
Qed.

Lemma register_fresh_run (p : RegisterRequest.t) w (hashed email' : pystr) :
  store_up w ->
  ~ taken w "username" (RegisterRequest.username p) ->
  ~ taken w "email" (RegisterRequest.email p) ->
  sha256 (RegisterRequest.password p) = inr hashed ->
  EmailStr (RegisterRequest.email p) = Some email' ->
  register p w
  = (inr (Registered (oid_str (generated_id (issued w)))),
     record_in w "user" (user_fields (RegisterRequest.username p) email' hashed)).
Proof.
  intros Hup Hname Hmail Hsha Hvalid.
  unfold register, mbind, M_bind, raise, lift.
  rewrite (db_getitem_up _ _ Hup), (find_one_up _ _ _ Hup).
  rewrite find_none_elem.
  - simpl. rewrite Hsha. unfold UserSchema. rewrite Hvalid.
    by rewrite (create_document_up _ _ _ Hup).
  - intros d Hd. simpl. apply orb_false_iff. split; apply bool_decide_false.
    + intros Heq. apply Hname. by exists d.
    + intros Heq. apply Hmail. by exists d.
Qed.

Lemma register_taken_run (p : RegisterRequest.t) w d :
  store_up w -> d ∈ coll w "user" ->
  fields d !! "username" = Some (VStr (RegisterRequest.username p)) \/
  fields d !! "email" = Some (VStr (RegisterRequest.email p)) ->
  register p w = (inl (HTTPException 400 "Username or email already exists"), w).
Proof.
  intros Hup Hin Hd.
  destruct (find_some_elem
              (matches (FOr (FEq "username" (VStr (RegisterRequest.username p)))
                            (FEq "email" (VStr (RegisterRequest.email p)))))
              (coll w "user")) as [d' Hfind].
  { exists d. split; [done|]. simpl. apply orb_true_iff.
    destruct Hd as [Hd|Hd]; [left|right]; by apply bool_decide_eq_true. }
  unfold register, mbind, M_bind, raise.
  by rewrite (db_getitem_up _ _ Hup), (find_one_up _ _ _ Hup), Hfind.
Qed.

Lemma login_run (p : LoginRequest.t) w (hashed : pystr) :
  store_up w -> sha256 (LoginRequest.password p) = inr hashed ->
  login p w
  = match List.find (matches (FAnd (FEq "username" (VStr (LoginRequest.username p)))
                                   (FEq "password_hash" (VStr hashed))))
            (coll w "user") with
    | None => (inl (HTTPException 401 "Invalid credentials"), w)
    | Some user => (inr (LoggedIn (get user "username")), w)
    end.
Proof.
  intros Hup Hsha. unfold login, mbind, M_bind, lift. rewrite Hsha.
  rewrite (db_getitem_up _ _ Hup), (find_one_up _ _ _ Hup).
  by destruct (List.find _ _).
Qed.

Lemma contribute_run (p : SubmitChallengeRequest.t) w (hashed : pystr) :
  store_up w -> sha256 (SubmitChallengeRequest.flag p) = inr hashed ->
  0 <= SubmitChallengeRequest.points p ->
  contribute_challenge p w
  = (inr (Contributed (oid_str (generated_id (issued w)))),
     record_in w "challenge"
       (model_dump (Challenge.Make (SubmitChallengeRequest.title p)
                      (SubmitChallengeRequest.description p) hashed
                      (SubmitChallengeRequest.points p) (py "anonymous")
                      (SubmitChallengeRequest.tags p) true))).
Proof.
  intros Hup Hsha Hpts. unfold contribute_challenge, mbind, M_bind, lift.
  rewrite Hsha. unfold ChallengeSchema. rewrite (int_ge0_int _ Hpts).
  by rewrite (create_document_up _ _ _ Hup).
Qed.

(** X13.  A contributed challenge can be solved with its flag, and only with a
    flag of the same digest: when the identifier the store hands out is new
    to the collection and its text parses back to it, submitting the
    returned identifier with the contributed flag is accepted and records
    one Solve with the contributed points, and submitting it with a flag of
    another digest is answered with 400 "Incorrect flag". *)
Theorem contribute_then_submit (payload : SubmitChallengeRequest.t) w (hashed : pystr) :
  store_up w ->
  (forall d, d ∈ coll w "challenge" -> _id d <> generated_id (issued w)) ->
  ObjectId (oid_str (generated_id (issued w))) = Some (generated_id (issued w)) ->
  sha256 (SubmitChallengeRequest.flag payload) = inr hashed ->
  0 <= SubmitChallengeRequest.points payload ->
  let o := generated_id (issued w) in
  let w1 := (contribute_challenge payload w).2 in
  (contribute_challenge payload w).1 = inr (Contributed (oid_str o)) /\
  (exists w2,
     submit_flag (SubmitFlagRequest.Make (oid_str o) (SubmitChallengeRequest.flag payload)) w1
     = (inr (FlagAccepted "Flag accepted"), w2) /\
     one_solve_created w1 w2 o (SubmitChallengeRequest.points payload)) /\
  (forall flag' hashed',
     sha256 flag' = inr hashed' -> hashed' <> hashed ->
     submit_flag (SubmitFlagRequest.Make (oid_str o) flag') w1
     = (inl (HTTPException 400 "Incorrect flag"), w1)).
Proof.
  intros Hup Hfresh Hparse Hsha Hpts. simpl.
  rewrite (contribute_run _ _ _ Hup Hsha Hpts). simpl.
  set (flds := model_dump (Challenge.Make _ _ _ _ _ _ _)).
  set (o := generated_id (issued w)) in *.
  set (w1 := record_in w "challenge" flds).
  assert (Hup1 : store_up w1) by by apply store_up_record_in.
  assert (Hfind : List.find (matches (FId o)) (coll w1 "challenge") = Some (Doc o flds)).
  { unfold w1. rewrite coll_record_in_eq. apply find_app_fresh.
    - intros x Hx. simpl. apply bool_decide_false. by apply Hfresh.
    - simpl. by apply bool_decide_true. }
  split; [done|]. split.
  - eexists. split; [|apply record_in_one_solve].
    apply (submit_flag_right _ w1 o (Doc o flds) hashed); try done.
    + rewrite str_ne_field. by rewrite bool_decide_true.
    + by apply int_ge0_int.
  - intros flag' hashed' Hsha' Hne.
    apply (submit_flag_wrong _ w1 o (Doc o flds) hashed'); try done.
    rewrite str_ne_field. rewrite bool_decide_false; [done|].
    simpl. intros [= ?]. done.
Qed.

(** X14.  A registered user can log in, and only with a password of the same
    digest: after a registration that succeeds, logging in with the same
    username and password returns the username; with a password of another
    digest it raises 401. *)
Theorem register_then_login (p : RegisterRequest.t) w (hashed email' : pystr) :
  store_up w ->
  ~ taken w "username" (RegisterRequest.username p) ->
  ~ taken w "email" (RegisterRequest.email p) ->
  sha256 (RegisterRequest.password p) = inr hashed ->
  EmailStr (RegisterRequest.email p) = Some email' ->
  let w1 := (register p w).2 in
  login (LoginRequest.Make (RegisterRequest.username p) (RegisterRequest.password p)) w1
  = (inr (LoggedIn (VStr (RegisterRequest.username p))), w1) /\
  (forall password' hashed',
     sha256 password' = inr hashed' -> hashed' <> hashed ->
     login (LoginRequest.Make (RegisterRequest.username p) password') w1
     = (inl (HTTPException 401 "Invalid credentials"), w1)).
Proof.
  intros Hup Hname Hmail Hsha Hvalid. simpl.
  rewrite (register_fresh_run _ _ _ _ Hup Hname Hmail Hsha Hvalid). simpl.
  set (flds := user_fields (RegisterRequest.username p) email' hashed).
  set (w1 := record_in w "user" flds).
  assert (Hup1 : store_up w1) by by apply store_up_record_in.
  assert (Hcoll : coll w1 "user" = coll w "user" ++ [Doc (generated_id (issued w)) flds])
    by apply coll_record_in_eq.
  split.
  - rewrite (login_run (LoginRequest.Make _ _) _ hashed Hup1 Hsha). simpl. rewrite Hcoll.
    rewrite find_app_fresh; [done| |by simpl; rewrite !bool_decide_true].
    intros x Hx. simpl. apply andb_false_iff. left. apply bool_decide_false.
    intros Hx'. apply Hname. by exists x.
  - intros password' hashed' Hsha' Hne.
    rewrite (login_run (LoginRequest.Make _ _) _ hashed' Hup1 Hsha'). simpl.
    rewrite find_none_elem; [done|].
    intros x Hx. rewrite Hcoll in Hx. simpl. apply andb_false_iff.
    apply elem_of_app in Hx as [Hx|Hx].
    + left. apply bool_decide_false. intros Hx'. apply Hname. by exists x.
    + apply list_elem_of_singleton in Hx as ->. right. apply bool_decide_false.
      simpl. intros [= ?]. done.
Qed.

(** X15.  A username or an email cannot be registered twice: after a
    registration that succeeds, every request with the same username, or
    with the email as it was stored, is refused with 400, whatever its other
    fields, and stores nothing. *)
Theorem register_again_refused (p p' : RegisterRequest.t) w (hashed email' : pystr) :
  store_up w ->
  ~ taken w "username" (RegisterRequest.username p) ->
  ~ taken w "email" (RegisterRequest.email p) ->
  sha256 (RegisterRequest.password p) = inr hashed ->
  EmailStr (RegisterRequest.email p) = Some email' ->
  RegisterRequest.username p' = RegisterRequest.username p \/
  RegisterRequest.email p' = email' ->
  let w1 := (register p w).2 in
  register p' w1 = (inl (HTTPException 400 "Username or email already exists"), w1).
Proof.
  intros Hup Hname Hmail Hsha Hvalid Hsame. simpl.
  rewrite (register_fresh_run _ _ _ _ Hup Hname Hmail Hsha Hvalid). simpl.
  set (flds := user_fields (RegisterRequest.username p) email' hashed).
  apply (register_taken_run p' _ (Doc (generated_id (issued w)) flds)).
  - by apply store_up_record_in.
  - rewrite coll_record_in_eq. apply elem_of_app. right. apply list_elem_of_here.
  - simpl. destruct Hsame as [-> | ->]; [by left|by right].
Qed.

End Composition.

(** ** The leaderboard of a store that only the handlers have written *)

Section SingleIdentity.

Context `{L : Libraries}.
Implicit Types (w : world) (docs : list document).

Lemma fold_group_single docs (k : value) (s : Z) :
  (forall d, d ∈ docs -> get d "username" = k) ->
  fold_left (fun rows d => add_row (get d "username") (numeric (get d "points")) rows)
            docs [Row k s]
  = [Row k (s + total_points k docs)].
Proof.
  revert s. induction docs as [|d docs IH]; intros s Hall; simpl.
  - unfold total_points. simpl. by rewrite Z.add_0_r.
  - rewrite (Hall d) by left. rewrite decide_True by done.
    rewrite IH by (intros d' Hd'; apply Hall; by right).
    rewrite total_points_cons, (Hall d) by left. rewrite decide_True by done.
    by rewrite Z.add_assoc.
Qed.

Lemma group_sum_single (d : document) docs (k : value) :
  (forall x, x ∈ d :: docs -> get x "username" = k) ->
  group_sum "username" "points" (d :: docs) = [Row k (total_points k (d :: docs))].
Proof.
  intros Hall. unfold group_sum. simpl. rewrite (Hall d) by left.
  rewrite fold_group_single by (intros d' Hd'; apply Hall; by right).
  rewrite total_points_cons, (Hall d) by left. by rewrite decide_True.
Qed.

Lemma leaderboard_one_username w (k : value) :
  store_up w ->
  (forall d, d ∈ coll w "solve" -> get d "username" = k) ->
  leaderboard w
  = (inr (LeaderboardItems
            match coll w "solve" with
            | [] => []
            | _ :: _ => [Standing k (total_points k (coll w "solve"))]
            end), w).
Proof.
  intros Hup Hall. rewrite (leaderboard_up _ Hup).
  destruct (coll w "solve") as [|d docs] eqn:Hsolves; [done|].
  rewrite (group_sum_single d docs k Hall).
  assert (merge_sort descending [Row k (total_points k (d :: docs))]
          = [Row k (total_points k (d :: docs))]) as ->; [|done].
  apply Permutation_singleton_r, merge_sort_Permutation.
Qed.

(** X16.  [submit_flag] records every Solve under the username "anonymous", so
    when all solves carry it the leaderboard has no entry (no solve) or the
    single entry "anonymous" with the sum of the points of all solves. *)
Theorem leaderboard_anonymous w :
  store_up w ->
  (forall d, d ∈ coll w "solve" -> get d "username" = VStr (py "anonymous")) ->
  leaderboard w
  = (inr (LeaderboardItems
            match coll w "solve" with
            | [] => []
            | _ :: _ =>
                [Standing (VStr (py "anonymous"))
                   (total_points (VStr (py "anonymous")) (coll w "solve"))]
            end), w).
Proof. apply leaderboard_one_username. Qed.

(** X17.  Starting from an empty store that answers, whatever requests are
    served, the leaderboard never has more than one entry, and that entry
    is "anonymous": no handler records a solve under another username. *)
Theorem leaderboard_of_served_store (rs : list request) w :
  store_up w -> collections w = ∅ ->
  exists items,
    leaderboard (serve rs w) = (inr (LeaderboardItems items), serve rs w) /\
    (length items <= 1)%nat /\
    forall it, it ∈ items -> standing_username it = VStr (py "anonymous").
Proof.
  intros Hup Hempty.
  pose proof (serve_grows rs w) as [Hup' _]. specialize (Hup' Hup).
  pose proof (grows_schema_ok _ _ (serve_grows rs w) (schema_ok_empty _ Hempty)) as Hok.
  eexists. split.
  - apply (leaderboard_one_username _ (VStr (py "anonymous")) Hup').
    intros d Hd. destruct (Hok "solve" d Hd) as (cid & n & Hflds & _).
    unfold get, get_or. by rewrite Hflds.
  - destruct (coll (serve rs w) "solve"); simpl; split; try lia.
    + intros it Hit. by apply elem_of_nil in Hit.
    + intros it Hit. by apply list_elem_of_singleton in Hit as ->.
Qed.

End SingleIdentity.

(** ** The properties above on concrete stores *)

Lemma odd_challenges :
  coll Cases.odd "challenge" = [Cases.nullified; Cases.debt; Cases.textual].
Proof. reflexivity. Qed.

Lemma odd_store_up : store_up Cases.odd.
Proof. by split. Qed.

Lemma odd_unique_ids : unique_ids Cases.odd "challenge".
Proof. unfold unique_ids. rewrite odd_challenges. by apply (bool_decide_unpack _); vm_compute. Qed.

Lemma demo_fresh_challenge_id (d : document) :
  d ∈ coll Demo.ctf "challenge" -> _id d <> generated_id (issued Demo.ctf).
Proof.
  rewrite demo_challenges. intros Hd. apply list_elem_of_In in Hd. simpl in Hd.
  destruct Hd as [<-|[<-|[<-|[]]]]; by vm_compute.
Qed.

Lemma served_documents_conform_witness :
  schema_ok (serve Cases.scenario Demo.empty_world).
Proof.
  apply (served_documents_conform Cases.scenario Demo.empty_world).
  by apply schema_ok_empty.
Defined.

Lemma failed_request_stores_nothing_witness :
  collections (app (POST_register Cases.alice) Demo.ctf).2 = collections Demo.ctf.
Proof.
  apply (failed_request_stores_nothing (POST_register Cases.alice) Demo.ctf
           (HTTPException 400 "Username or email already exists")).
  by vm_compute.
Defined.

Lemma read_request_stores_nothing_witness :
  collections (app GET_leaderboard Demo.ctf_failing).2 = collections Demo.ctf_failing.
Proof. by apply (read_request_stores_nothing GET_leaderboard Demo.ctf_failing). Defined.

Lemma test_database_reports_witness :
  test_database Cases.no_db
  = (inr (TestReport (Diagnostic "✅ Running" "⚠️  Available but not initialized"
                        None None "Not Connected" [])), Cases.no_db) /\
  test_database Demo.ctf_failing
  = (inr (TestReport (Diagnostic "✅ Running"
                        "⚠️  Connected but Error: connection refused"
                        (Some "✅ Set"%string) (Some "ctf"%string) "Connected" [])),
     Demo.ctf) /\
  test_database Demo.ctf
  = (inr (TestReport (Diagnostic "✅ Running" "✅ Connected & Working"
                        (Some "✅ Set"%string) (Some "ctf"%string) "Connected"
                        ["solve"; "challenge"; "user"]%string)), Demo.ctf).
Proof.
  split; [|split].
  - by apply (test_database_reports Cases.no_db).
  - destruct (test_database_reports Demo.ctf_failing) as (_ & Hfail & _).
    by apply (Hfail eq_refl "connection refused"%string []).
  - destruct (test_database_reports Demo.ctf) as (_ & _ & Hup).
    by apply (Hup demo_store_up).
Defined.

Lemma store_failure_propagates_witness :
  register Cases.bob Demo.ctf_failing
  = (inl (PyMongoError "connection refused"), Demo.ctf) /\
  login (LoginRequest.Make (py "alice") (py "pw123")) Demo.ctf_failing
  = (inl (PyMongoError "connection refused"), Demo.ctf) /\
  leaderboard Demo.ctf_failing = (inl (PyMongoError "connection refused"), Demo.ctf).
Proof.
  destruct (store_failure_propagates Demo.ctf_failing "connection refused" []
              eq_refl eq_refl) as (Hreg & Hlogin & Hboard).
  split; [apply Hreg|]. split; [|apply Hboard].
  apply (Hlogin (LoginRequest.Make (py "alice") (py "pw123")) Demo.pw123).
  by vm_compute.
Defined.

Lemma no_database_handle_witness :
  submit_flag (Demo.submission "650000000000000000000001" "flag{abc}") Cases.no_db
  = (inl (HTTPException 400 "Invalid challenge id"), Cases.no_db) /\
  register Cases.bob Cases.no_db = (inl TypeError, Cases.no_db) /\
  leaderboard Cases.no_db = (inl TypeError, Cases.no_db).
Proof.
  destruct (no_database_handle Cases.no_db eq_refl) as (Hsubmit & Hreg & _ & Hboard).
  split; [apply Hsubmit|]. split; [apply Hreg|apply Hboard].
Defined.

Lemma surrogate_secret_raises_witness :
  login (LoginRequest.Make (py "alice") [0xD800]) Demo.ctf
  = (inl UnicodeEncodeError, Demo.ctf) /\
  contribute_challenge
    (SubmitChallengeRequest.Make (py "Warmup") (py "") [102; 0xDFFF] 100 None) Demo.ctf
  = (inl UnicodeEncodeError, Demo.ctf).
Proof.
  destruct (surrogate_secret_raises Demo.ctf) as [Hlogin Hcontribute]. split.
  - apply (Hlogin (LoginRequest.Make (py "alice") [0xD800])). by left.
  - apply (Hcontribute
             (SubmitChallengeRequest.Make (py "Warmup") (py "") [102; 0xDFFF] 100 None)).
    right. by left.
Defined.

Lemma sha256_raises_iff_witness :
  (exists e, sha256 [102; 0xDFFF] = inl e)
  <-> Exists (fun c => surrogate c = true) [102; 0xDFFF].
Proof.
  apply sha256_raises_iff. repeat constructor; vm_compute; congruence.
Defined.

Lemma submit_flag_not_found_iff_witness :
  (submit_flag (Demo.submission "650000000000000000000011" "flag{abc}") Cases.odd).1
  = inl (HTTPException 404 "Challenge not found").
Proof.
  apply (submit_flag_not_found_iff
           (Demo.submission "650000000000000000000011" "flag{abc}") Cases.odd
           0x650000000000000000000011 odd_store_up odd_unique_ids eq_refl).
  right. exists Cases.nullified. split; [|by split].
  rewrite odd_challenges. apply list_elem_of_here.
Defined.

Lemma submit_flag_invalid_points_witness :
  submit_flag (Demo.submission "650000000000000000000012" "flag{abc}") Cases.odd
  = (inl ValidationError, Cases.odd) /\
  submit_flag (Demo.submission "650000000000000000000013" "flag{abc}") Cases.odd
  = (inl ValidationError, Cases.odd).
Proof.
  split.
  - apply (submit_flag_invalid_points
             (Demo.submission "650000000000000000000012" "flag{abc}") Cases.odd
             0x650000000000000000000012 Cases.debt Demo.flag_abc (VInt (-5))
             odd_store_up odd_unique_ids eq_refl);
      [|reflexivity|reflexivity|by vm_compute|reflexivity|reflexivity|].
    + rewrite odd_challenges. apply list_elem_of_further, list_elem_of_here.
    + left. exists (-5). split; [done|lia].
  - apply (submit_flag_invalid_points
             (Demo.submission "650000000000000000000013" "flag{abc}") Cases.odd
             0x650000000000000000000013 Cases.textual Demo.flag_abc (VStr (py "ten"))
             odd_store_up odd_unique_ids eq_refl);
      [|reflexivity|reflexivity|by vm_compute|reflexivity|reflexivity|].
    + rewrite odd_challenges.
      apply list_elem_of_further, list_elem_of_further, list_elem_of_here.
    + by right.
Defined.

Lemma submit_flag_twice_witness :
  let p := Demo.submission "650000000000000000000001" "flag{abc}" in
  let w1 := (submit_flag p Demo.ctf).2 in
  let w2 := (submit_flag p w1).2 in
  (submit_flag p Demo.ctf).1 = inr (FlagAccepted "Flag accepted") /\
  (submit_flag p w1).1 = inr (FlagAccepted "Flag accepted") /\
  exists s1 s2,
    coll w2 "solve" = coll Demo.ctf "solve" ++ [s1; s2] /\
    fields s1 = solve_fields (py "650000000000000000000001") 100 /\
    fields s2 = solve_fields (py "650000000000000000000001") 100.
Proof.
  apply (submit_flag_twice (Demo.submission "650000000000000000000001" "flag{abc}")
           Demo.ctf 0x650000000000000000000001 Demo.warmup Demo.flag_abc 100
           demo_store_up (demo_unique_ids "challenge") eq_refl);
    [demo_challenge|reflexivity|reflexivity|by vm_compute|reflexivity|reflexivity|lia].
Defined.

Lemma contribute_then_submit_witness :
  let o := 0x650000000000000000000007 in
  let w1 := (contribute_challenge Cases.warmup Demo.ctf).2 in
  (contribute_challenge Cases.warmup Demo.ctf).1
  = inr (Contributed (py "650000000000000000000007")) /\
  (exists w2,
     submit_flag (Demo.submission "650000000000000000000007" "flag{abc}") w1
     = (inr (FlagAccepted "Flag accepted"), w2) /\
     one_solve_created w1 w2 o 100) /\
  (forall flag' hashed',
     sha256 flag' = inr hashed' -> hashed' <> Demo.flag_abc ->
     submit_flag (SubmitFlagRequest.Make (py "650000000000000000000007") flag') w1
     = (inl (HTTPException 400 "Incorrect flag"), w1)).
Proof.
  apply (contribute_then_submit Cases.warmup Demo.ctf Demo.flag_abc demo_store_up
           demo_fresh_challenge_id);
    [by vm_compute|by vm_compute|simpl; lia].
Defined.

Lemma register_then_login_witness :
  let w1 := (register Cases.bob Demo.ctf).2 in
  login (LoginRequest.Make (py "bob") (py "hunter2")) w1
  = (inr (LoggedIn (VStr (py "bob"))), w1) /\
  (forall password' hashed',
     sha256 password' = inr hashed' -> hashed' <> Demo.digest_of (py "hunter2") ->
     login (LoginRequest.Make (py "bob") password') w1
     = (inl (HTTPException 401 "Invalid credentials"), w1)).
Proof.
  apply (register_then_login Cases.bob Demo.ctf (Demo.digest_of (py "hunter2"))
           (py "bob@example.com") demo_store_up).
  - apply demo_only_alice. by vm_compute.
  - apply demo_only_alice. by vm_compute.
  - by vm_compute.
  - by vm_compute.
Defined.

Lemma register_again_refused_witness :
  let w1 := (register Cases.bob Demo.ctf).2 in
  register (RegisterRequest.Make (py "bob") (py "other@example.com") (py "x")) w1
  = (inl (HTTPException 400 "Username or email already exists"), w1).
Proof.
  apply (register_again_refused Cases.bob
           (RegisterRequest.Make (py "bob") (py "other@example.com") (py "x"))
           Demo.ctf (Demo.digest_of (py "hunter2")) (py "bob@example.com")
           demo_store_up).
  - apply demo_only_alice. by vm_compute.
  - apply demo_only_alice. by vm_compute.
  - by vm_compute.
  - by vm_compute.
  - by left.
Defined.

Lemma leaderboard_anonymous_witness :
  leaderboard Cases.played
  = (inr (LeaderboardItems [Standing (VStr (py "anonymous")) 150]), Cases.played).
Proof.
  assert (Hplayed : store_up Cases.played) by by split.
  rewrite (leaderboard_anonymous Cases.played Hplayed); [reflexivity|].
  intros d Hd. apply list_elem_of_In in Hd.
  destruct Hd as [<-|[<-|[]]]; reflexivity.
Defined.

Lemma leaderboard_of_served_store_witness :
  exists items,
    leaderboard (serve Cases.scenario Demo.empty_world)
    = (inr (LeaderboardItems items), serve Cases.scenario Demo.empty_world) /\
    (length items <= 1)%nat /\
    forall it, it ∈ items -> standing_username it = VStr (py "anonymous").
Proof.
  by apply (leaderboard_of_served_store Cases.scenario Demo.empty_world).
Defined.

(** After the scenario, with the flag submitted twice, "anonymous" has 200. *)
Example leaderboard_after_scenario :
  (leaderboard (serve Cases.scenario Demo.empty_world)).1
  = inr (LeaderboardItems [Standing (VStr (py "anonymous")) 200]).
Proof. by vm_compute. Qed.
